(** * Bulk content upload handler (src/routes/content/bulk.js)

    A shallow embedding of the request handler that stores the metadata
    envelopes of an uploaded tarball and then removes the stored content
    that the tarball no longer contains.

    The handler is event driven.  Its callbacks run one at a time on the
    Node event loop, so the embedding is a transition system: a [State]
    holds the variables of the handler's closure together with the
    listeners and callbacks that are waiting, and every [Event] runs the
    corresponding callback to completion.  What the handler does to its
    collaborators (logger, response, storage) is recorded, in order, in the
    [out] trace of the state. *)

From Stdlib Require Import String Ascii List Bool Arith Lia.
From stdpp Require Import base option list gmap strings.
Import ListNotations.

#[local] Set Warnings "-register-all".

Local Open Scope string_scope.

(* ===================================================================== *)
(** * Strings as character lists *)
(* ===================================================================== *)

Abbreviation chars := (list ascii).

Definition to_chars (s : string) : chars := list_ascii_of_string s.
Definition of_chars (l : chars) : string := string_of_list_ascii l.

Definition is_slash (c : ascii) : bool := Ascii.eqb c "/"%char.
Definition not_slash (c : ascii) : bool := negb (is_slash c).

Fixpoint drop_while {A} (p : A -> bool) (l : list A) : list A :=
  match l with
  | [] => []
  | x :: l' => if p x then drop_while p l' else l
  end.

Fixpoint take_while {A} (p : A -> bool) (l : list A) : list A :=
  match l with
  | [] => []
  | x :: l' => if p x then x :: take_while p l' else []
  end.

(** [s.endsWith(suffix)] *)
Definition endsWith (s suffix : string) : bool :=
  bool_decide (drop (String.length s - String.length suffix) (to_chars s)
               = to_chars suffix
               /\ String.length suffix <= String.length s).

(* ===================================================================== *)
(** * Node's [path] module (posix) *)
(* ===================================================================== *)

Module NodePath.

(** [path.sep] *)
Definition sep : ascii := "/"%char.

(** [path.basename(p)]: trailing separators are skipped, the result is
    what follows the last separator before them. *)
Definition basename_chars (p : chars) : chars :=
  rev (take_while not_slash (drop_while is_slash (rev p))).

Definition basename (p : string) : string :=
  of_chars (basename_chars (to_chars p)).

(** [path.basename(p, ext)]: the base name, with [ext] removed when the
    base name ends with it. *)
Definition basename_ext (p ext : string) : string :=
  let f := basename p in
  if endsWith f ext
  then of_chars (take (String.length f - String.length ext) (to_chars f))
  else f.

(** [path.dirname(p)].  The scan runs from the last character down to
    index 1: separators at the very end are skipped, then the last
    component, and the separator found there is where the result ends.
    Index 0 is never inspected by the scan, it only decides [hasRoot]. *)
Definition dirname_chars (p : chars) : chars :=
  match p with
  | [] => ["."%char]
  | c0 :: rest =>
      let hasRoot := is_slash c0 in
      match drop_while not_slash (drop_while is_slash (rev rest)) with
      | [] => if hasRoot then ["/"%char] else ["."%char]
      | _ :: before =>
          if hasRoot && bool_decide (before = [])
          then ["/"%char; "/"%char]
          else c0 :: rev before
      end
  end.

Definition dirname (p : string) : string :=
  of_chars (dirname_chars (to_chars p)).

End NodePath.

(** [s.split('/')]: never empty, one more piece than there are separators. *)
Fixpoint split_chars (l : chars) : list chars :=
  match l with
  | [] => [[]]
  | c :: l' =>
      if is_slash c then [] :: split_chars l'
      else match split_chars l' with
           | [] => [[c]]
           | w :: ws => (c :: w) :: ws
           end
  end.

Definition split_sep (s : string) : list string :=
  map of_chars (split_chars (to_chars s)).

(* ===================================================================== *)
(** * [decodeURIComponent] *)
(* ===================================================================== *)

(** Strings are kept as the UTF-8 bytes of their text.  [decodeURIComponent]
    replaces every escape [%XX] by the octet it names; the octets of one
    character must all be escaped and must be the UTF-8 encoding of a code
    point, otherwise the call throws [URIError] ([None] here). *)
Module URI.

Local Open Scope N_scope.

Definition hex_val (c : ascii) : option N :=
  let n := N_of_ascii c in
  if (48 <=? n) && (n <=? 57) then Some (n - 48)
  else if (65 <=? n) && (n <=? 70) then Some (n - 55)
  else if (97 <=? n) && (n <=? 102) then Some (n - 87)
  else None.

Inductive token :=
| Lit (c : ascii)
| Esc (b : N).

Fixpoint tokens (l : chars) : option (list token) :=
  match l with
  | [] => Some []
  | c :: l' =>
      if Ascii.eqb c "%"%char then
        match l' with
        | h1 :: h2 :: l'' =>
            match hex_val h1, hex_val h2 with
            | Some a, Some b => cons (Esc (16 * a + b)) <$> tokens l''
            | _, _ => None
            end
        | _ => None
        end
      else cons (Lit c) <$> tokens l'
  end.

(** A continuation octet is [10xxxxxx]. *)
Definition is_cont (b : N) : bool := (128 <=? b) && (b <? 192).

Definition valid2 (b0 b1 : N) : bool :=
  let cp := (b0 - 192) * 64 + (b1 - 128) in
  is_cont b1 && (128 <=? cp).

Definition valid3 (b0 b1 b2 : N) : bool :=
  let cp := (b0 - 224) * 4096 + (b1 - 128) * 64 + (b2 - 128) in
  is_cont b1 && is_cont b2 && (2048 <=? cp)
  && negb ((55296 <=? cp) && (cp <=? 57343)).

Definition valid4 (b0 b1 b2 b3 : N) : bool :=
  let cp := (b0 - 240) * 262144 + (b1 - 128) * 4096
            + (b2 - 128) * 64 + (b3 - 128) in
  is_cont b1 && is_cont b2 && is_cont b3
  && (65536 <=? cp) && (cp <=? 1114111).

Fixpoint decode_tokens (ts : list token) : option chars :=
  match ts with
  | [] => Some []
  | Lit c :: ts' => cons c <$> decode_tokens ts'
  | Esc b0 :: ts' =>
      if b0 <? 128 then cons (ascii_of_N b0) <$> decode_tokens ts'
      else if b0 <? 192 then None
      else if b0 <? 224 then
        match ts' with
        | Esc b1 :: ts'' =>
            if valid2 b0 b1
            then app [ascii_of_N b0; ascii_of_N b1] <$> decode_tokens ts''
            else None
        | _ => None
        end
      else if b0 <? 240 then
        match ts' with
        | Esc b1 :: Esc b2 :: ts'' =>
            if valid3 b0 b1 b2
            then app [ascii_of_N b0; ascii_of_N b1; ascii_of_N b2]
                   <$> decode_tokens ts''
            else None
        | _ => None
        end
      else if b0 <? 248 then
        match ts' with
        | Esc b1 :: Esc b2 :: Esc b3 :: ts'' =>
            if valid4 b0 b1 b2 b3
            then app [ascii_of_N b0; ascii_of_N b1; ascii_of_N b2;
                      ascii_of_N b3] <$> decode_tokens ts''
            else None
        | _ => None
        end
      else None
  end.

Definition decodeURIComponent (s : string) : option string :=
  of_chars <$> (tokens (to_chars s) ≫= decode_tokens).

End URI.

(* ===================================================================== *)
(** * JavaScript values used by the handler *)
(* ===================================================================== *)

Module JS.

(** What [JSON.parse] returns.  A number is kept as the string that
    [String(n)] gives for it (so [0] and [-0] are both ["0"]); the
    fields of an object are in the order of the text. *)
Inductive json :=
| JNull
| JBool (b : bool)
| JNum (repr : string)
| JStr (s : string)
| JArr (l : list json)
| JObj (fields : list (string * json)).

(** An [Error] object; [statusCode] is the property that [reportError]
    assigns on a fatal error. *)
Record Error := {
  ename : string;
  message : string;
  statusCode : option nat
}.

Definition mkError (n m : string) : Error :=
  {| ename := n; message := m; statusCode := None |}.

(** [err.statusCode = c] *)
Definition set_statusCode (c : nat) (e : Error) : Error :=
  {| ename := ename e; message := message e; statusCode := Some c |}.

Definition TypeError (m : string) : Error := mkError "TypeError" m.
Definition URIError : Error := mkError "URIError" "URI malformed".

(** [!!v] *)
Definition truthy (v : json) : bool :=
  match v with
  | JNull => false
  | JBool b => b
  | JNum r => negb (String.eqb r "0")
  | JStr s => negb (String.eqb s "")
  | JArr _ => true
  | JObj _ => true
  end.

(** [!!v] where [v] may be [undefined] *)
Definition truthy_opt (v : option json) : bool :=
  match v with
  | None => false
  | Some v => truthy v
  end.

(** Own property of a parsed object: the last occurrence of a key wins. *)
Fixpoint own_property (fields : list (string * json)) (k : string)
  : option json :=
  match fields with
  | [] => None
  | (k', v) :: fs =>
      match own_property fs k with
      | Some v' => Some v'
      | None => if String.eqb k k' then Some v else None
      end
  end.

(** [v.k] for a parsed value [v] and a key [k] that is neither an index,
    nor [length], nor a name of a built-in prototype (the handler reads
    [contentIDBase] and [keep]): [null] has no properties and the read
    throws, an object gives its own property, everything else gives
    [undefined]. *)
Definition get_member (v : json) (k : string) : Error + option json :=
  match v with
  | JNull =>
      inl (TypeError ("Cannot read property '" ++ k ++ "' of null"))
  | JObj fields => inr (own_property fields k)
  | _ => inr None
  end.

(** [v.forEach(f)]: only arrays have a [forEach]; calling what any other
    parsed value has under that name throws.  The elements are visited
    in order. *)
Definition forEach_elements (v : json) : Error + list json :=
  match v with
  | JArr l => inr l
  | _ => inl (TypeError "keep.keep.forEach is not a function")
  end.

(** [String(v)], the property key that [o[v]] uses. *)
Fixpoint toPropertyKey (v : json) : string :=
  match v with
  | JNull => "null"
  | JBool true => "true"
  | JBool false => "false"
  | JNum r => r
  | JStr s => s
  | JArr l =>
      (fix join (l : list json) : string :=
         match l with
         | [] => ""
         | x :: l' =>
             let sx := match x with
                       | JNull => ""
                       | _ => toPropertyKey x
                       end in
             match l' with
             | [] => sx
             | _ => sx ++ "," ++ join l'
             end
         end) l
  | JObj _ => "[object Object]"
  end.

(** ** A plain object used as a map ([let toKeep = {}]) *)

(** The properties that every plain object inherits from
    [Object.prototype]; each of them reads as a function or an object. *)
Definition Object_prototype_names : list string :=
  [ "constructor"; "hasOwnProperty"; "isPrototypeOf";
    "propertyIsEnumerable"; "toLocaleString"; "toString"; "valueOf";
    "__defineGetter__"; "__defineSetter__"; "__lookupGetter__";
    "__lookupSetter__"; "__proto__" ].

(** [o[k] = v] with a boolean [v]: an own property, except that
    [__proto__] is an accessor whose setter ignores a primitive. *)
Definition obj_set (o : gmap string bool) (k : string) (v : bool)
  : gmap string bool :=
  if String.eqb k "__proto__" then o else <[k := v]> o.

(** [!!o[k]]: the own property if there is one, else the inherited one. *)
Definition obj_get_truthy (o : gmap string bool) (k : string) : bool :=
  match o !! k with
  | Some b => b
  | None => bool_decide (k ∈ Object_prototype_names)
  end.

(** ** Buffers *)

Abbreviation Buffer := (list Byte.byte).

(** [Buffer.concat(list, totalLength)]: an empty list gives an empty
    buffer; with a [totalLength] the result has exactly that length, cut
    when the chunks are longer and zero-filled when they are shorter;
    without one ([undefined]) the length is that of the chunks. *)
Definition Buffer_concat (l : list Buffer) (totalLength : option nat)
  : Buffer :=
  match l with
  | [] => []
  | _ =>
      match totalLength with
      | None => concat l
      | Some n => take n (concat l ++ replicate n Byte.x00)
      end
  end.

End JS.

Import JS.

(* ===================================================================== *)
(** * The request handler *)
(* ===================================================================== *)

(** An entry of the tarball as the parse stream announces it. *)
Record Entry := {
  entry_type : string;        (* entry.type *)
  entry_path : string;        (* entry.path *)
  entry_size : option nat     (* entry.size, [None] when undefined *)
}.

(** A task of the upload queue: [{ contentID, envelope }]. *)
Record Task := {
  contentID : string;
  envelope : json
}.

Inductive Level := Debug | Info | Warn | Err.

(** The second argument of a logger call. *)
Inductive Payload :=
| PNone
| PContentID (id : string)
| PStored (id : string) (envelopeCount failureCount : nat)
| PProblem (entryPath : option string) (err : string) (statusCode : nat)
| PDeletionCount (n : nat)
| PCompleted (acceptedCount failedCount deletedCount : nat)
| PPath (p : string)
| PCorrupted (err : string).

(** What the handler does to its collaborators. *)
Inductive Action :=
| Log (lvl : Level) (msg : string) (payload : Payload)
| ResSend (code : nat) (body : option Error)     (* res.send(code[, body]) *)
| Next (err : option Error)                      (* next() / next(err) *)
| StoreEnvelope (t : Task)                       (* storeEnvelope(id, envelope, cb) *)
| ListContent (base : json)                      (* storage.listContent(base, cb) *)
| ListNext                                       (* next() of a listing page *)
| RemoveEnvelopes (ids : list string)            (* removeEnvelopes(ids, cb) *)
| Uncaught (e : Error).                          (* an exception leaves a callback *)

(** [uploadQueue.drain] is either the queue's default or [finishRequest]. *)
Inductive DrainCb := Noop | FinishRequest.

(** [async.queue(envelopeWorker, 10)]: the tasks not yet started, the
    number of running workers and the tasks they work on. *)
Record Queue := {
  tasks : list Task;
  workers : nat;
  workersList : list Task;
  drain : DrainCb
}.

(** The callback that [jsonFromStream] was given for an entry. *)
Inductive Handler :=
| HConfig
| HKeep
| HEnvelope (contentID : string).

(** The listeners that [jsonFromStream] put on an entry's stream, with the
    chunks collected so far. *)
Record Listener := {
  l_handler : Handler;
  l_entry : Entry;
  l_chunks : list Buffer
}.

(** A running [removeDeletedContent]: either [storage.listContent] is
    delivering pages or [removeEnvelopes] has been called. *)
Inductive Recon :=
| Listing (existingContentIDs : list string)
| Removing.

Record State := {
  contentIDBase : option json;     (* null, or the value of the config key *)
  envelopeCount : nat;
  failureCount : nat;
  deletionCount : nat;
  toKeep : gmap string bool;
  uploadQueue : Queue;
  streams : list Listener;
  recons : list Recon;
  out : list Action
}.

Definition emptyQueue : Queue :=
  {| tasks := []; workers := 0; workersList := []; drain := Noop |}.

(** The handler's variables when a request arrives. *)
Definition init : State :=
  {| contentIDBase := None; envelopeCount := 0; failureCount := 0;
     deletionCount := 0; toKeep := ∅; uploadQueue := emptyQueue;
     streams := []; recons := []; out := [] |}.

Definition set_contentIDBase (v : option json) (s : State) : State :=
  {| contentIDBase := v; envelopeCount := envelopeCount s;
     failureCount := failureCount s; deletionCount := deletionCount s;
     toKeep := toKeep s; uploadQueue := uploadQueue s; streams := streams s;
     recons := recons s; out := out s |}.

Definition set_envelopeCount (n : nat) (s : State) : State :=
  {| contentIDBase := contentIDBase s; envelopeCount := n;
     failureCount := failureCount s; deletionCount := deletionCount s;
     toKeep := toKeep s; uploadQueue := uploadQueue s; streams := streams s;
     recons := recons s; out := out s |}.

Definition set_failureCount (n : nat) (s : State) : State :=
  {| contentIDBase := contentIDBase s; envelopeCount := envelopeCount s;
     failureCount := n; deletionCount := deletionCount s;
     toKeep := toKeep s; uploadQueue := uploadQueue s; streams := streams s;
     recons := recons s; out := out s |}.

Definition set_deletionCount (n : nat) (s : State) : State :=
  {| contentIDBase := contentIDBase s; envelopeCount := envelopeCount s;
     failureCount := failureCount s; deletionCount := n;
     toKeep := toKeep s; uploadQueue := uploadQueue s; streams := streams s;
     recons := recons s; out := out s |}.

Definition set_toKeep (m : gmap string bool) (s : State) : State :=
  {| contentIDBase := contentIDBase s; envelopeCount := envelopeCount s;
     failureCount := failureCount s; deletionCount := deletionCount s;
     toKeep := m; uploadQueue := uploadQueue s; streams := streams s;
     recons := recons s; out := out s |}.

Definition set_uploadQueue (q : Queue) (s : State) : State :=
  {| contentIDBase := contentIDBase s; envelopeCount := envelopeCount s;
     failureCount := failureCount s; deletionCount := deletionCount s;
     toKeep := toKeep s; uploadQueue := q; streams := streams s;
     recons := recons s; out := out s |}.

Definition set_streams (l : list Listener) (s : State) : State :=
  {| contentIDBase := contentIDBase s; envelopeCount := envelopeCount s;
     failureCount := failureCount s; deletionCount := deletionCount s;
     toKeep := toKeep s; uploadQueue := uploadQueue s; streams := l;
     recons := recons s; out := out s |}.

Definition set_recons (l : list Recon) (s : State) : State :=
  {| contentIDBase := contentIDBase s; envelopeCount := envelopeCount s;
     failureCount := failureCount s; deletionCount := deletionCount s;
     toKeep := toKeep s; uploadQueue := uploadQueue s; streams := streams s;
     recons := l; out := out s |}.

(** A call on a collaborator is appended to the trace. *)
Definition emit (a : Action) (s : State) : State :=
  {| contentIDBase := contentIDBase s; envelopeCount := envelopeCount s;
     failureCount := failureCount s; deletionCount := deletionCount s;
     toKeep := toKeep s; uploadQueue := uploadQueue s; streams := streams s;
     recons := recons s; out := out s ++ [a] |}.

(** How a callback ends: it returns, or an exception leaves it.  Either
    way the assignments made until then stay. *)
Inductive Outcome :=
| Returns (s : State)
| Throws (e : Error) (s : State).

Section Handler.

(** The two platform functions of [jsonFromStream]:
    [b.toString('utf-8')] and [JSON.parse], which either throws a
    [SyntaxError] or returns the value. *)
Variable Buffer_toString : Buffer -> string.
Variable JSON_parse : string -> Error + json.

(** [async.queue(envelopeWorker, 10)] *)
Definition concurrency : nat := 10.

(** ** [reportError]: log an error and optionally report it to the user *)
Definition reportError (err : Error) (entryPath : option string)
    (description : string) (fatal : bool) (s : State) : State :=
  let logPayload := PProblem entryPath (message err) 400 in
  if fatal then
    emit (Next (Some (set_statusCode 400 err)))
      (emit (Log Err ("Fatal bulk upload problem: " ++ description)
               logPayload) s)
  else
    emit (Log Warn ("Bulk upload problem: " ++ description) logPayload) s.

(** ** The upload queue *)

(** [envelopeWorker(task, cb)] up to the call of [storeEnvelope]. *)
Definition envelopeWorker (task : Task) (s : State) : State :=
  emit (StoreEnvelope task)
    (emit (Log Debug "Beginning envelope storage"
             (PContentID (contentID task))) s).

(** [q.process()]: while a worker is free and a task waits, the first
    waiting task is taken and handed to the worker. *)
Fixpoint q_process_from (waiting : list Task) (s : State) : State :=
  match waiting with
  | [] => set_uploadQueue
            {| tasks := []; workers := workers (uploadQueue s);
               workersList := workersList (uploadQueue s);
               drain := drain (uploadQueue s) |} s
  | task :: waiting' =>
      if (workers (uploadQueue s) <? concurrency)%nat then
        q_process_from waiting'
          (envelopeWorker task
             (set_uploadQueue
                {| tasks := waiting';
                   workers := S (workers (uploadQueue s));
                   workersList := workersList (uploadQueue s) ++ [task];
                   drain := drain (uploadQueue s) |} s))
      else
        set_uploadQueue
          {| tasks := waiting; workers := workers (uploadQueue s);
             workersList := workersList (uploadQueue s);
             drain := drain (uploadQueue s) |} s
  end.

Definition q_process (s : State) : State :=
  q_process_from (tasks (uploadQueue s)) s.

(** [uploadQueue.push(task)]: the task is appended; [q.process] is not
    called here but deferred with [setImmediate], see [EvProcess]. *)
Definition q_push (task : Task) (s : State) : State :=
  set_uploadQueue
    {| tasks := tasks (uploadQueue s) ++ [task];
       workers := workers (uploadQueue s);
       workersList := workersList (uploadQueue s);
       drain := drain (uploadQueue s) |} s.

(** [uploadQueue.running()] *)
Definition q_running (s : State) : nat := workers (uploadQueue s).

(** ** [reportCompletion] *)
Definition reportCompletion (s : State) : State :=
  emit (Next None)
    (emit (ResSend 204 None)
       (emit (Log Info "Bulk content upload completed successfully."
                (PCompleted (envelopeCount s) (failureCount s)
                   (deletionCount s))) s)).

(** The callback that [finishRequest] gives to [removeDeletedContent]. *)
Definition finishRequest_cb (err : option Error) (s : State) : State :=
  let s1 := match err with
            | Some e => reportError e None "deleted content removal" true s
            | None => s
            end in
  reportCompletion s1.

(** ** [removeDeletedContent], up to its first wait *)
Definition removeDeletedContent (s : State) : State :=
  match contentIDBase s with
  | Some base =>
      if truthy base then
        emit (ListContent base) (set_recons (recons s ++ [Listing []]) s)
      else
        finishRequest_cb None
          (emit (Log Debug "Skipping content deletion." PNone) s)
  | None =>
      finishRequest_cb None
        (emit (Log Debug "Skipping content deletion." PNone) s)
  end.

(** The filter of [removeDeletedContent]: [(id) => !toKeep[id]] *)
Definition toDelete_of (m : gmap string bool) (existing : list string)
  : list string :=
  List.filter (fun id => negb (obj_get_truthy m id)) existing.

(** The callback of [storage.listContent], for the listing at index [i]. *)
Definition listContent_cb (i : nat) (existing : list string)
    (r : Error + list string) (s : State) : State :=
  match r with
  | inl err => finishRequest_cb (Some err) (set_recons (delete i (recons s)) s)
  | inr ids =>
      if (0 <? length ids)%nat then
        emit ListNext
          (set_recons (<[i := Listing (existing ++ ids)]> (recons s)) s)
      else
        let toDelete := toDelete_of (toKeep s) existing in
        let s1 := set_deletionCount (length toDelete) s in
        emit (RemoveEnvelopes toDelete)
          (emit (Log Debug "Deleting removed envelopes."
                   (PDeletionCount (deletionCount s1)))
             (set_recons (<[i := Removing]> (recons s1)) s1))
  end.

(** The callback of [removeEnvelopes]. *)
Definition removeEnvelopes_cb (i : nat) (err : option Error) (s : State)
  : State :=
  let s1 := set_recons (delete i (recons s)) s in
  match err with
  | Some e => finishRequest_cb (Some e) s1
  | None => finishRequest_cb None (emit (Log Debug "Envelopes deleted." PNone) s1)
  end.

(** [finishRequest], declared in the [end] listener *)
Definition finishRequest (s : State) : State := removeDeletedContent s.

(** [q.drain()] *)
Definition q_drain (s : State) : State :=
  match drain (uploadQueue s) with
  | Noop => s
  | FinishRequest => finishRequest s
  end.

(** The [cb] that the queue gives to the worker, for the running task at
    index [i]: the worker is released, [drain] is called when nothing
    waits and nothing runs, then [process]. *)
Definition q_next (i : nat) (s : State) : State :=
  let q := uploadQueue s in
  let s1 := set_uploadQueue
              {| tasks := tasks q; workers := workers q - 1;
                 workersList := delete i (workersList q);
                 drain := drain q |} s in
  let s2 := if (length (tasks (uploadQueue s1)) + workers (uploadQueue s1)
                =? 0)%nat
            then q_drain s1 else s1 in
  q_process s2.

(** The callback that [envelopeWorker] gives to [storeEnvelope]. *)
Definition storeEnvelope_cb (i : nat) (task : Task) (err : option Error)
    (s : State) : State :=
  match err with
  | Some e =>
      let s1 := set_failureCount (S (failureCount s)) s in
      q_next i (reportError e None "storing metadata envelope" false s1)
  | None =>
      let s1 := set_envelopeCount (S (envelopeCount s)) s in
      q_next i
        (emit (Log Debug "Envelope stored successfully"
                 (PStored (contentID task) (envelopeCount s1)
                    (failureCount s1))) s1)
  end.

(** ** [jsonFromStream] *)

(** The [try] block of the [end] listener, up to the call of the
    callback: the chunks are joined to [stream.size] bytes, decoded and
    parsed. *)
Definition materialize (chunks : list Buffer) (size : option nat)
  : Error + json :=
  let b := Buffer_concat chunks size in
  let s := Buffer_toString b in
  JSON_parse s.

(** The [end] listener.  The callback is called inside the [try] block,
    so an exception that leaves it is caught and the callback is called
    a second time, with that exception. *)
Definition jsonFromStream_end (chunks : list Buffer) (size : option nat)
    (callback : Error + json -> State -> Outcome) (s : State) : Outcome :=
  match materialize chunks size with
  | inr payload =>
      match callback (inr payload) s with
      | Returns s' => Returns s'
      | Throws err s' => callback (inl err) s'
      end
  | inl err => callback (inl err) s
  end.

(** [jsonFromStream(entry, callback)]: the listeners are registered, no
    chunk has arrived yet. *)
Definition jsonFromStream (entry : Entry) (h : Handler) (s : State)
  : State :=
  set_streams
    (streams s ++ [{| l_handler := h; l_entry := entry; l_chunks := [] |}])
    s.

(** ** The entry handlers *)

(** The callback of [handleConfigEntry]. *)
Definition handleConfigEntry_cb (entry : Entry) (r : Error + json)
    (s : State) : Outcome :=
  match r with
  | inl err =>
      Returns (reportError err (Some (entry_path entry))
                 "parsing config.json" false s)
  | inr config =>
      match get_member config "contentIDBase" with
      | inl e => Throws e s
      | inr v =>
          if negb (truthy_opt v) then
            let e := mkError "Error" "Missing required key: contentIDBase" in
            Returns (reportError e (Some (entry_path entry))
                       "parsing config.json" false s)
          else Returns (set_contentIDBase v s)
      end
  end.

(** [keep.keep.forEach((contentID) => { toKeep[contentID] = true; })] *)
Definition keep_all (l : list json) (s : State) : State :=
  fold_left
    (fun s contentID =>
       set_toKeep (obj_set (toKeep s) (toPropertyKey contentID) true) s)
    l s.

(** The callback of [handleKeepEntry]. *)
Definition handleKeepEntry_cb (entry : Entry) (r : Error + json)
    (s : State) : Outcome :=
  match r with
  | inl err =>
      Returns (reportError err (Some (entry_path entry))
                 "parsing keep.json" false s)
  | inr keep =>
      match get_member keep "keep" with
      | inl e => Throws e s
      | inr v =>
          match v with
          | Some kv =>
              if negb (truthy kv) then
                let e := mkError "Error" "Missing required key: keep" in
                Returns (reportError e (Some (entry_path entry))
                           "parsing keep.json" false s)
              else
                match forEach_elements kv with
                | inl e => Throws e s
                | inr l => Returns (keep_all l s)
                end
          | None =>
              let e := mkError "Error" "Missing required key: keep" in
              Returns (reportError e (Some (entry_path entry))
                         "parsing keep.json" false s)
          end
      end
  end.

(** The callback of [handleEnvelopeEntry]. *)
Definition handleEnvelopeEntry_cb (entry : Entry) (contentID : string)
    (r : Error + json) (s : State) : Outcome :=
  match r with
  | inl err =>
      let s1 := set_failureCount (S (failureCount s)) s in
      Returns (reportError err (Some (entry_path entry))
                 "parsing metadata envelope" false s1)
  | inr envelope =>
      Returns (q_push {| contentID := contentID; envelope := envelope |} s)
  end.

Definition callback_of (h : Handler) (entry : Entry)
  : Error + json -> State -> Outcome :=
  match h with
  | HConfig => handleConfigEntry_cb entry
  | HKeep => handleKeepEntry_cb entry
  | HEnvelope contentID => handleEnvelopeEntry_cb entry contentID
  end.

Definition handleConfigEntry (entry : Entry) (s : State) : State :=
  jsonFromStream entry HConfig s.

Definition handleKeepEntry (entry : Entry) (s : State) : State :=
  jsonFromStream entry HKeep s.

(** [handleEnvelopeEntry]: the content ID is decoded from the file name
    and kept before the stream is read. *)
Definition handleEnvelopeEntry (entry : Entry) (s : State) : Outcome :=
  let encodedContentID := NodePath.basename_ext (entry_path entry) ".json" in
  match URI.decodeURIComponent encodedContentID with
  | None => Throws URIError s
  | Some contentID =>
      let s1 := set_toKeep (obj_set (toKeep s) contentID true) s in
      Returns (jsonFromStream entry (HEnvelope contentID) s1)
  end.

(** ** The listeners of the parse stream *)

(** [parse.on('entry', ...)] *)
Definition on_entry (entry : Entry) (s : State) : Outcome :=
  if negb (String.eqb (entry_type entry) "File") then Returns s
  else
    let dirs := split_sep (NodePath.dirname (entry_path entry)) in
    let dname := last dirs in
    let bname := NodePath.basename (entry_path entry) in
    let s := emit (Log Debug "Received entry for path"
                     (PPath (entry_path entry))) s in
    if bool_decide (dname = Some "metadata") then
      if String.eqb bname "config.json" then
        Returns (handleConfigEntry entry s)
      else if String.eqb bname "keep.json" then
        Returns (handleKeepEntry entry s)
      else
        Returns (emit (Log Warn "Unrecognized metadata entry"
                         (PPath (entry_path entry))) s)
    else if endsWith bname ".json" then
      handleEnvelopeEntry entry s
    else
      Returns (emit (Log Warn "Unrecognized entry"
                       (PPath (entry_path entry))) s).

(** [parse.on('error', ...)] *)
Definition on_error (err : Error) (s : State) : State :=
  emit (Next None)
    (emit (ResSend 400 (Some err))
       (emit (Log Info "Corrupted tarball uploaded"
                (PCorrupted (message err))) s)).

(** [parse.on('end', ...)] *)
Definition on_end (s : State) : State :=
  if (0 <? q_running s)%nat then
    set_uploadQueue
      {| tasks := tasks (uploadQueue s); workers := workers (uploadQueue s);
         workersList := workersList (uploadQueue s);
         drain := FinishRequest |} s
  else finishRequest s.

(** ** The event loop *)

(** The callbacks that the platform and the collaborators run.  An index
    names the waiting listener, running worker or running removal that
    the callback belongs to. *)
Inductive Event :=
| EvEntry (entry : Entry)                         (* parse: 'entry' *)
| EvData (i : nat) (chunk : Buffer)               (* entry stream: 'data' *)
| EvStreamEnd (i : nat)                           (* entry stream: 'end' *)
| EvStreamError (i : nat) (err : Error)           (* entry stream: 'error' *)
| EvProcess                                       (* the deferred q.process *)
| EvStored (i : nat) (err : option Error)         (* storeEnvelope calls back *)
| EvParseError (err : Error)                      (* parse: 'error' *)
| EvParseEnd                                      (* parse: 'end' *)
| EvListPage (i : nat) (r : Error + list string)  (* listContent calls back *)
| EvRemoved (i : nat) (err : option Error).       (* removeEnvelopes calls back *)

(** An exception that leaves a callback is recorded; what the platform
    does with it is outside the handler. *)
Definition settle (o : Outcome) : State :=
  match o with
  | Returns s => s
  | Throws e s => emit (Uncaught e) s
  end.

(** One callback, run to completion.  [None]: nothing waits for this
    event. *)
Definition step (ev : Event) (s : State) : option State :=
  match ev with
  | EvEntry entry => Some (settle (on_entry entry s))
  | EvData i chunk =>
      l ← streams s !! i;
      Some (set_streams
              (<[i := {| l_handler := l_handler l; l_entry := l_entry l;
                         l_chunks := l_chunks l ++ [chunk] |}]> (streams s))
              s)
  | EvStreamEnd i =>
      l ← streams s !! i;
      Some (settle
              (jsonFromStream_end (l_chunks l) (entry_size (l_entry l))
                 (callback_of (l_handler l) (l_entry l))
                 (set_streams (delete i (streams s)) s)))
  | EvStreamError i err =>
      l ← streams s !! i;
      Some (settle
              (callback_of (l_handler l) (l_entry l) (inl err)
                 (set_streams (delete i (streams s)) s)))
  | EvProcess => Some (q_process s)
  | EvStored i err =>
      task ← workersList (uploadQueue s) !! i;
      Some (storeEnvelope_cb i task err s)
  | EvParseError err => Some (on_error err s)
  | EvParseEnd => Some (on_end s)
  | EvListPage i r =>
      match recons s !! i with
      | Some (Listing existing) => Some (listContent_cb i existing r s)
      | _ => None
      end
  | EvRemoved i err =>
      match recons s !! i with
      | Some Removing => Some (removeEnvelopes_cb i err s)
      | _ => None
      end
  end.

(** The callbacks of a request, in the order in which they run. *)
Fixpoint run (evs : list Event) (s : State) : option State :=
  match evs with
  | [] => Some s
  | ev :: evs' => s' ← step ev s; run evs' s'
  end.

End Handler.

(* ===================================================================== *)
(** * The entry classifier of the specification *)
(* ===================================================================== *)

(** The specification states the dispatch of [parse.on('entry')] as a
    function [classify] of the path, in terms of the base name and the
    name of the immediate parent directory.  It is written here from those
    words, on the components of the path, to be compared with what
    [on_entry] does with [path.dirname] and [path.basename]. *)
Module Spec.







End Spec.

(* ===================================================================== *)
(** * Response classes *)
(* ===================================================================== *)

Inductive StatusClass := ClientError | ServerError | OtherStatus.

(** 4xx is the client's fault, 5xx the server's. *)
Definition status_class (code : nat) : StatusClass :=
  if (400 <=? code)%nat && (code <? 500)%nat then ClientError
  else if (500 <=? code)%nat && (code <? 600)%nat then ServerError
  else OtherStatus.

(** The status code with which an action answers the request with an
    error, if it does. *)
Definition error_status (a : Action) : option nat :=
  match a with
  | Next (Some e) => statusCode e
  | ResSend code (Some _) => Some code
  | _ => None
  end.

(** An action of the success path: [res.send(204)]. *)
Definition is_success_response (a : Action) : bool :=
  match a with
  | ResSend 204 None => true
  | _ => false
  end.

(** An action of the error path: [next(err)] or [res.send(code, err)]. *)
Definition is_error_response (a : Action) : bool :=
  match a with
  | Next (Some _) => true
  | ResSend _ (Some _) => true
  | _ => false
  end.

(** The storage operations that have been started and have not called
    back: the calls of [storeEnvelope] in the trace, less the callbacks. *)
Definition is_StoreEnvelope (a : Action) : bool :=
  match a with
  | StoreEnvelope _ => true
  | _ => false
  end.

Definition puts_started (s : State) : nat :=
  length (List.filter is_StoreEnvelope (out s)).

(* ===================================================================== *)
(** * Sample requests *)
(* ===================================================================== *)

Module Sample.

Definition dquote : string := String (ascii_of_nat 34) "".
Definition quoted (s : string) : string := dquote ++ s ++ dquote.

(** The text of a [metadata/config.json] whose base is [to]. *)
Definition config_text : string :=
  "{" ++ quoted "contentIDBase" ++ ":" ++ quoted "to" ++ "}".

(** The text of a [metadata/keep.json] without the [keep] key. *)
Definition nokeep_text : string := "{}".

(** [b.toString('utf-8')] of a buffer of ASCII text. *)
Definition toString (b : Buffer) : string := string_of_list_byte b.

(** [JSON.parse] on the texts of the sample requests.  Any other text
    here is not JSON. *)
Definition parse (s : string) : Error + json :=
  if String.eqb s config_text then
    inr (JObj [("contentIDBase", JStr "to")])
  else if String.eqb s "{}" then inr (JObj [])
  else inl (mkError "SyntaxError" "Unexpected token").

Definition bytes (s : string) : Buffer := list_byte_of_string s.

Definition configEntry : Entry :=
  {| entry_type := "File"; entry_path := "metadata/config.json";
     entry_size := Some (String.length config_text) |}.

Definition keepEntry : Entry :=
  {| entry_type := "File"; entry_path := "metadata/keep.json";
     entry_size := Some 2 |}.

Definition envelopeEntry : Entry :=
  {| entry_type := "File";
     entry_path := "envelopes/to%2Fa.json";
     entry_size := Some 2 |}.

Definition envelopeTask : Task :=
  {| contentID := "to/a"; envelope := JObj [] |}.

Definition storeError : Error := mkError "Error" "storage unavailable".

(** The callbacks for [metadata/config.json]. *)
Definition configRead : list Event :=
  [ EvEntry configEntry; EvData 0 (bytes config_text); EvStreamEnd 0 ].

(** A request whose tarball holds [metadata/config.json] only. *)
Definition configOnly : list Event := configRead ++ [EvParseEnd].

(** The callbacks for an envelope entry whose two bytes are read and
    parsed. *)
Definition envelopeRead : list Event :=
  [ EvEntry envelopeEntry; EvData 0 (bytes "{}"); EvStreamEnd 0 ].

(** Eleven envelopes are read and pushed, then the queue's deferred
    [process] runs. *)
Definition elevenEnvelopes : list Event :=
  concat (replicate 11 envelopeRead) ++ [EvProcess].


(** A request without envelopes for which the store lists two IDs, one
    of them the name of an inherited property. *)
Definition listsPrototypeName : list Event :=
  configOnly ++ [ EvListPage 0 (inr ["toString"; "tomato"]);
                  EvListPage 0 (inr []) ].

End Sample.

Local Open Scope list_scope.

(* ===================================================================== *)
(** * Notions of the statements *)
(* ===================================================================== *)

(** A [name] is a non-empty piece without separator; [slashes] is a run of
    separators. *)
Definition slashes (l : chars) : Prop := Forall (fun c => is_slash c = true) l.
Definition slash_free (l : chars) : Prop :=
  Forall (fun c => not_slash c = true) l.


(** The calls that starting the tasks [ts] makes. *)
Definition start_actions (ts : list Task) : list Action :=
  flat_map (fun t => [Log Debug "Beginning envelope storage"
                        (PContentID (contentID t)); StoreEnvelope t]) ts.

Definition is_EvStored (ev : Event) : bool :=
  match ev with
  | EvStored _ _ => true
  | _ => false
  end.

(** The callbacks of [storeEnvelope] among the events of a request. *)
Definition puts_called_back (evs : list Event) : nat :=
  length (List.filter is_EvStored evs).

(** What the concurrency bound is about: the workers that run, the tasks
    they run and the [storeEnvelope] calls made so far. *)
Definition qstat (s : State) : nat * list Task * nat :=
  (workers (uploadQueue s), workersList (uploadQueue s), puts_started s).

(** The state in which a callback leaves the handler. *)
Definition state_of (o : Outcome) : State :=
  match o with
  | Returns s => s
  | Throws _ s => s
  end.

Definition queue_ok (s : State) : Prop :=
  workers (uploadQueue s) = length (workersList (uploadQueue s))
  /\ workers (uploadQueue s) <= concurrency.

(** [!!toKeep[id]], the test of [removeDeletedContent]. *)
Definition kept (id : string) (s : State) : Prop :=
  obj_get_truthy (toKeep s) id = true.

(** The handler only ever assigns [true] in [toKeep]. *)
Definition grows (m m' : gmap string bool) : Prop :=
  exists ks, m' = fold_left (fun m k => obj_set m k true) ks m.

Definition all_true (m : gmap string bool) : Prop :=
  forall k b, m !! k = Some b -> b = true.

Definition no_removal (a : Action) : Prop :=
  match a with
  | RemoveEnvelopes _ => False
  | _ => True
  end.

(** A removal asked for while the keep-set is [m] names IDs that the
    filter let through. *)
Definition from_toKeep (m : gmap string bool) (a : Action) : Prop :=
  match a with
  | RemoveEnvelopes ids => exists existing, ids = toDelete_of m existing
  | _ => True
  end.

(** The removal, if [a] is one, does not name [id]. *)
Definition spares (id : string) (a : Action) : Prop :=
  match a with
  | RemoveEnvelopes ids => ~ In id ids
  | _ => True
  end.

(** The keep-set only grew and no removal was asked for. *)
Definition calm (s s' : State) : Prop :=
  grows (toKeep s) (toKeep s')
  /\ exists new, out s' = out s ++ new /\ Forall no_removal new.

(** The callback for the stream at index [i] did nothing but take its
    listener away and log the problem [err] as a warning, with the path of
    the entry. *)
Definition only_logged (i : nat) (l : Listener) (description : string)
    (err : Error) (s s' : State) : Prop :=
  out s' = out s ++ [Log Warn ("Bulk upload problem: " ++ description)%string
                       (PProblem (Some (entry_path (l_entry l)))
                          (message err) 400)]
  /\ envelopeCount s' = envelopeCount s
  /\ deletionCount s' = deletionCount s
  /\ contentIDBase s' = contentIDBase s
  /\ toKeep s' = toKeep s
  /\ uploadQueue s' = uploadQueue s
  /\ recons s' = recons s
  /\ streams s' = delete i (streams s).

Definition missing_contentIDBase : Error :=
  mkError "Error" "Missing required key: contentIDBase".

Definition missing_keep : Error :=
  mkError "Error" "Missing required key: keep".

(** The listing or the removal of a running [removeDeletedContent] fails
    with [err]: the event [ev] is the callback that says so. *)
Definition reconciliation_fails (s : State) (ev : Event) (err : Error)
  : Prop :=
  exists i,
    (exists existing, recons s !! i = Some (Listing existing)
                      /\ ev = EvListPage i (inl err))
    \/ (recons s !! i = Some Removing /\ ev = EvRemoved i (Some err)).

(** The first thing that [removeDeletedContent] does: it asks for the
    listing, or logs that there is nothing to remove. *)
Definition starts_reconciliation (a : Action) : bool :=
  match a with
  | ListContent _ => true
  | Log Debug msg PNone => String.eqb msg "Skipping content deletion."
  | _ => false
  end.

(** The trace grew, and [removeDeletedContent] was not entered. *)
Definition still (s s' : State) : Prop :=
  exists new, out s' = out s ++ new
              /\ Forall (fun a => starts_reconciliation a = false) new.

(** The state after the callbacks [evs] of a sample request. *)
Definition sample_run (evs : list Event) : option State :=
  run Sample.toString Sample.parse evs init.

(* --------------------------------------------------------------------- *)
(** ** Notions of the further properties *)

(** Where [parse.on('entry')] sends a file: to the config handler, to the
    keep handler, to the envelope handler (with the decoding of the file
    name without [.json], [None] when [decodeURIComponent] throws), or to
    nobody, with the warning that is logged. *)
Inductive Route :=
| ToConfig
| ToKeep
| ToEnvelope (contentID : option string)
| ToNobody (warning : string).

Definition route (p : string) : Route :=
  let dirs := split_sep (NodePath.dirname p) in
  let dname := last dirs in
  let bname := NodePath.basename p in
  if bool_decide (dname = Some "metadata") then
    if String.eqb bname "config.json" then ToConfig
    else if String.eqb bname "keep.json" then ToKeep
    else ToNobody "Unrecognized metadata entry"
  else if endsWith bname ".json" then
    ToEnvelope (URI.decodeURIComponent (NodePath.basename_ext p ".json"))
  else ToNobody "Unrecognized entry".

Definition is_envelope_listener (l : Listener) : bool :=
  match l_handler l with
  | HEnvelope _ => true
  | _ => false
  end.

Definition is_config_listener (l : Listener) : bool :=
  match l_handler l with
  | HConfig => true
  | _ => false
  end.



(** An [entry] callback for a file that is dispatched to the config
    handler. *)
Definition is_config_entry (ev : Event) : bool :=
  match ev with
  | EvEntry entry =>
      String.eqb (entry_type entry) "File"
      && match route (entry_path entry) with
         | ToConfig => true
         | _ => false
         end
  | _ => false
  end.


Definition is_EvParseEnd (ev : Event) : bool :=
  match ev with
  | EvParseEnd => true
  | _ => false
  end.

(** The actions with which the handler finishes a request: the listing
    and the removal of [removeDeletedContent], and the success answer. *)
Definition is_finishing (a : Action) : bool :=
  match a with
  | ListContent _ => true
  | RemoveEnvelopes _ => true
  | ResSend 204 None => true
  | _ => false
  end.

(** The actions of [removeDeletedContent] on the store. *)
Definition is_reconciling (a : Action) : bool :=
  match a with
  | ListContent _ => true
  | RemoveEnvelopes _ => true
  | _ => false
  end.

(** The state after the callback of [storeEnvelope] counted and logged the
    result and the worker was released. *)
Definition released (i : nat) (task : Task) (err : option Error) (s : State)
  : State :=
  set_uploadQueue
    {| tasks := tasks (uploadQueue s);
       workers := workers (uploadQueue s) - 1;
       workersList := delete i (workersList (uploadQueue s));
       drain := drain (uploadQueue s) |}
    (match err with
     | Some e =>
         emit (Log Warn "Bulk upload problem: storing metadata envelope"
                 (PProblem None (message e) 400))
           (set_failureCount (S (failureCount s)) s)
     | None =>
         emit (Log Debug "Envelope stored successfully"
                 (PStored (contentID task) (S (envelopeCount s))
                    (failureCount s)))
           (set_envelopeCount (S (envelopeCount s)) s)
     end).

(** The tasks for which [storeEnvelope] was called, in the order of the
    calls. *)
Definition stored_tasks (l : list Action) : list Task :=
  omap (fun a => match a with
                 | StoreEnvelope t => Some t
                 | _ => None
                 end) l.

(** The tasks that were pushed on the queue, in the order of the pushes:
    those already handed to [storeEnvelope], then those that wait. *)
Definition pushed_tasks (s : State) : list Task :=
  stored_tasks (out s) ++ tasks (uploadQueue s).

(** The IDs that the store listed, over all the pages of a request. *)
Definition listed_ids (evs : list Event) : list string :=
  flat_map (fun ev => match ev with
                      | EvListPage _ (inr ids) => ids
                      | _ => []
                      end) evs.

(** The IDs named by the removals of a trace. *)
Definition removed_ids (l : list Action) : list string :=
  flat_map (fun a => match a with
                     | RemoveEnvelopes ids => ids
                     | _ => []
                     end) l.

Definition is_percent (c : ascii) : bool := Ascii.eqb c "%"%char.

(** Nothing of the end of a request has happened. *)
Definition unfinished (s : State) : Prop :=
  drain (uploadQueue s) = Noop
  /\ recons s = []
  /\ deletionCount s = 0
  /\ List.filter is_finishing (out s) = [].

(** No config entry was read: there is no base and nothing of
    [removeDeletedContent] has touched the store. *)
Definition baseless (s : State) : Prop :=
  contentIDBase s = None
  /\ Forall (fun l => is_config_listener l = false) (streams s)
  /\ recons s = []
  /\ deletionCount s = 0
  /\ List.filter is_reconciling (out s) = [].

(** The exceptions that left a callback, in the order of a trace. *)
Definition uncaught_errors (l : list Action) : list Error :=
  omap (fun a => match a with
                 | Uncaught e => Some e
                 | _ => None
                 end) l.

(** An [entry] callback for a file that is dispatched to the envelope
    handler and whose name is not a percent-encoding. *)
Definition is_undecodable_entry (ev : Event) : bool :=
  match ev with
  | EvEntry entry =>
      String.eqb (entry_type entry) "File"
      && match route (entry_path entry) with
         | ToEnvelope None => true
         | _ => false
         end
  | _ => false
  end.

(** The IDs of the running listings and of the removals asked for are
    among [L]. *)
Definition listed_within (L : list string) (s : State) : Prop :=
  (forall existing, In (Listing existing) (recons s) -> incl existing L)
  /\ incl (removed_ids (out s)) L.

(** The task that the callback [ev] pushes on the queue in the state [s]:
    the [end] of the stream of an envelope entry whose text parses pushes
    the content ID of the entry with the parsed value. *)
Definition pushed_by (Buffer_toString : Buffer -> string)
    (JSON_parse : string -> Error + json) (ev : Event) (s : State)
  : list Task :=
  match ev with
  | EvStreamEnd i =>
      match streams s !! i with
      | Some l =>
          match l_handler l,
                materialize Buffer_toString JSON_parse (l_chunks l)
                  (entry_size (l_entry l)) with
          | HEnvelope id, inr envelope =>
              [{| contentID := id; envelope := envelope |}]
          | _, _ => []
          end
      | None => []
      end
  | _ => []
  end.

(** The tasks pushed by the callbacks [evs], run from [s]. *)
Fixpoint pushes (Buffer_toString : Buffer -> string)
    (JSON_parse : string -> Error + json) (evs : list Event) (s : State)
  : list Task :=
  match evs with
  | [] => []
  | ev :: evs' =>
      pushed_by Buffer_toString JSON_parse ev s
      ++ match step Buffer_toString JSON_parse ev s with
         | Some s' => pushes Buffer_toString JSON_parse evs' s'
         | None => []
         end
  end.

(** The listener [l] after the chunks [cs] arrived. *)
Definition with_chunks (l : Listener) (cs : list Buffer) : Listener :=
  {| l_handler := l_handler l; l_entry := l_entry l;
     l_chunks := l_chunks l ++ cs |}.

(** The callbacks of the queue and of the store. *)
Definition is_queue_or_store_event (ev : Event) : bool :=
  match ev with
  | EvProcess | EvStored _ _ | EvListPage _ _ | EvRemoved _ _ => true
  | _ => false
  end.

(** The number of times the request was answered with 204. *)
Definition completions (s : State) : nat :=
  length (List.filter is_success_response (out s)).

(** After the [end] of the tarball: either [finishRequest] waits as the
    [drain] of the queue, or it cannot be called by the queue any more and
    at most one [removeDeletedContent] runs or has completed. *)
Definition finishes_once (s : State) : Prop :=
  (drain (uploadQueue s) = FinishRequest
   /\ recons s = [] /\ completions s = 0)
  \/ ((drain (uploadQueue s) = Noop
       \/ (tasks (uploadQueue s) = [] /\ workers (uploadQueue s) = 0))
      /\ length (recons s) + completions s <= 1).

(** What the callback [ev] reports to the client as an error: a corrupted
    tarball is answered with 400 and the error, a failed listing or
    removal is handed to [next] with the status code 400. *)
Definition error_reports (ev : Event) : list Action :=
  match ev with
  | EvParseError err => [ResSend 400 (Some err)]
  | EvListPage _ (inl err) => [Next (Some (set_statusCode 400 err))]
  | EvRemoved _ (Some err) => [Next (Some (set_statusCode 400 err))]
  | _ => []
  end.

(** A callback after which the queue has looked for work: the deferred
    [process], or the callback of a [storeEnvelope]. *)
Definition is_queue_event (ev : Event) : bool :=
  match ev with
  | EvProcess | EvStored _ _ => true
  | _ => false
  end.

(** ** A sample upload *)

(** A tarball with a config entry, a keep list and one envelope, and the
    callbacks of a request that stores the envelope and removes what the
    store lists besides. *)
Module Upload.

(** The text of a [metadata/keep.json] that keeps [to/b]. *)
Definition keep_text : string :=
  ("{" ++ Sample.quoted "keep" ++ ":[" ++ Sample.quoted "to/b" ++ "]}")%string.

(** [JSON.parse] on the texts of the sample upload. *)
Definition parse_text (s : string) : Error + json :=
  if String.eqb s keep_text then inr (JObj [("keep", JArr [JStr "to/b"])])
  else if String.eqb s "null" then inr JNull
  else Sample.parse s.

Definition keepListEntry : Entry :=
  {| entry_type := "File"; entry_path := "metadata/keep.json";
     entry_size := Some (String.length keep_text) |}.

Definition keepRead : list Event :=
  [ EvEntry keepListEntry; EvData 0 (Sample.bytes keep_text);
    EvStreamEnd 0 ].

(** A config entry whose text is [null]. *)
Definition nullConfigEntry : Entry :=
  {| entry_type := "File"; entry_path := "metadata/config.json";
     entry_size := Some 4 |}.

(** An envelope whose file name needs no decoding, and one whose file
    name is not a percent-encoding. *)
Definition plainEntry : Entry :=
  {| entry_type := "File"; entry_path := "envelopes/a.json";
     entry_size := Some 2 |}.

Definition undecodableEntry : Entry :=
  {| entry_type := "File"; entry_path := "envelopes/%zz.json";
     entry_size := Some 2 |}.

(** The entries are read and the envelope is handed to a worker. *)
Definition entriesRead : list Event :=
  Sample.configRead ++ keepRead ++ Sample.envelopeRead ++ [EvProcess].

(** After the [end] of the tarball: the envelope is stored, the store
    lists three IDs in two pages, and the removal succeeds. *)
Definition afterEnd : list Event :=
  [ EvStored 0 None; EvListPage 0 (inr ["to/a"; "to/b"]);
    EvListPage 0 (inr ["to/c"]); EvListPage 0 (inr []); EvRemoved 0 None ].

Definition whole : list Event := entriesRead ++ EvParseEnd :: afterEnd.

(** The state after the callbacks [evs] of the sample upload. *)
Definition state_after (evs : list Event) : option State :=
  run Sample.toString parse_text evs init.

End Upload.

(* ===================================================================== *)
(** * The platform functions on examples *)
(* ===================================================================== *)

Example basename_ex1 : NodePath.basename "a/metadata/config.json" = "config.json".
Proof. reflexivity. Qed.
Example basename_ex2 : NodePath.basename_ext "a/b/x%20y.json" ".json" = "x%20y".
Proof. reflexivity. Qed.
Example dirname_ex1 : NodePath.dirname "a/metadata/config.json" = "a/metadata".
Proof. reflexivity. Qed.
Example dirname_ex2 : NodePath.dirname "config.json" = ".".
Proof. reflexivity. Qed.
Example dirname_ex3 : NodePath.dirname "/config.json" = "/".
Proof. reflexivity. Qed.
Example split_ex1 : split_sep "a/metadata" = ["a"; "metadata"].
Proof. reflexivity. Qed.
Example endsWith_ex1 : endsWith "x.json" ".json" = true.
Proof. reflexivity. Qed.
Example endsWith_ex2 : endsWith "json" ".json" = false.
Proof. reflexivity. Qed.

Example decode_ex1 : URI.decodeURIComponent "a%20b" = Some "a b".
Proof. reflexivity. Qed.
Example decode_ex2 :
  URI.decodeURIComponent "https%3A%2F%2Fexample.com%2Fa"
  = Some "https://example.com/a".
Proof. reflexivity. Qed.
Example decode_ex3 : URI.decodeURIComponent "100%" = None.
Proof. reflexivity. Qed.
Example decode_ex4 : URI.decodeURIComponent "%E9" = None.
Proof. reflexivity. Qed.
Example decode_ex5 :
  URI.decodeURIComponent "%C3%A9"
  = Some (String (ascii_of_nat 195) (String (ascii_of_nat 169) "")).
Proof. reflexivity. Qed.
Example decode_ex6 : URI.decodeURIComponent "%C0%80" = None.
Proof. reflexivity. Qed.
Example decode_ex7 : URI.decodeURIComponent "%ED%A0%80" = None.
Proof. reflexivity. Qed.

Example toPropertyKey_ex :
  toPropertyKey (JArr [JStr "a"; JNull; JArr [JNum "1"; JBool true]])
  = "a,,1,true".
Proof. reflexivity. Qed.
Example obj_get_ex1 : obj_get_truthy ∅ "toString" = true.
Proof. reflexivity. Qed.
Example obj_get_ex2 : obj_get_truthy ∅ "https://x/a" = false.
Proof. reflexivity. Qed.
Example obj_get_ex3 :
  obj_get_truthy (obj_set ∅ "https://x/a" true) "https://x/a" = true.
Proof. reflexivity. Qed.

(* ===================================================================== *)
(** * Tactics *)
(* ===================================================================== *)

(** Proves that a function built from [emit] and the setters leaves
    [qstat] alone, once its definition is unfolded. *)
Ltac qstat_frame :=
  intros; unfold qstat, puts_started; repeat case_match; simpl;
  rewrite ?List.filter_app, ?length_app; simpl;
  rewrite ?Nat.add_0_r; try done.

(** Proves [calm s (f s)] for a function built from [emit] and the
    setters that leaves [toKeep] alone, once its definition is unfolded. *)
Ltac calm_frame :=
  intros; repeat case_match; simpl;
  (split;
   [ by exists []
   | first [ by (exists []; rewrite app_nil_r)
           | eexists; simpl; rewrite <- ?app_assoc;
             split; [reflexivity | by repeat constructor] ] ]).

(** Proves [still s (f s)] for a function built from [emit] and the
    setters, once its definition is unfolded. *)
Ltac still_frame :=
  intros; repeat case_match; simpl;
  first [ by (exists []; rewrite app_nil_r)
        | eexists; simpl; rewrite <- ?app_assoc;
          split; [reflexivity | by repeat constructor] ].

(* ===================================================================== *)
(** * Paths: what [dirname] and [basename] compute *)
(* ===================================================================== *)

Section Scanning.
Context {A : Type} (p : A -> bool).

Lemma take_drop_while (l : list A) : take_while p l ++ drop_while p l = l.
Proof.
  induction l as [|x l IH]; simpl; [done|].
  destruct (p x); simpl; [by rewrite IH | done].
Qed.

Lemma drop_while_app_all (l1 l2 : list A) :
  Forall (fun x => p x = true) l1 ->
  drop_while p (l1 ++ l2) = drop_while p l2.
Proof.
  induction 1 as [|x l1 Hx _ IH]; simpl; [done|]. by rewrite Hx.
Qed.

Lemma take_while_app_all (l1 l2 : list A) :
  Forall (fun x => p x = true) l1 ->
  take_while p (l1 ++ l2) = l1 ++ take_while p l2.
Proof.
  induction 1 as [|x l1 Hx _ IH]; simpl; [done|]. by rewrite Hx, IH.
Qed.


Lemma take_while_all (l : list A) :
  Forall (fun x => p x = true) l -> take_while p l = l.
Proof.
  intros H. rewrite <- (app_nil_r l) at 1.
  rewrite take_while_app_all by done. simpl. by rewrite app_nil_r.
Qed.
End Scanning.

Lemma slashes_rev l : slashes l -> slashes (rev l).
Proof. apply List.Forall_rev. Qed.

Lemma slash_free_rev l : slash_free l -> slash_free (rev l).
Proof. apply List.Forall_rev. Qed.





(** A name ends with a character that is not a separator. *)
Lemma name_last b :
  b <> [] -> slash_free b ->
  exists b' c, b = b' ++ [c] /\ is_slash c = false /\ slash_free b'.
Proof.
  intros Hb Hf. destruct (exists_last Hb) as (b' & c & ->).
  exists b', c. apply Forall_app in Hf as [Hf Hc].
  split; [done|]. split; [|done].
  inversion Hc as [|? ? Hc' _]; subst. unfold not_slash in Hc'.
  by destruct (is_slash c).
Qed.

Lemma rev_name b :
  b <> [] -> slash_free b ->
  exists c r, rev b = c :: r /\ is_slash c = false /\ slash_free r.
Proof.
  intros Hb Hf. destruct (name_last b Hb Hf) as (b' & c & -> & Hc & Hf').
  exists c, (rev b'). rewrite rev_app_distr. simpl.
  split; [done|]. split; [done|]. by apply slash_free_rev.
Qed.

(** Scanning from the end of [x ++ b ++ sl]: the separators [sl] are
    skipped and the scan stands at the end of the name [b]. *)
Lemma scan_trailing x b sl :
  b <> [] -> slash_free b -> slashes sl ->
  drop_while is_slash (rev (x ++ b ++ sl)) = rev b ++ rev x.
Proof.
  intros Hb Hf Hsl. rewrite !rev_app_distr, <- app_assoc.
  rewrite drop_while_app_all by (by apply slashes_rev).
  destruct (rev_name b Hb Hf) as (c & r & -> & Hc & _). simpl. by rewrite Hc.
Qed.


(** ** [basename] *)


Lemma basename_chars_name x b sl :
  b <> [] -> slash_free b -> slashes sl ->
  (x = [] \/ exists d, x = d ++ ["/"%char]) ->
  NodePath.basename_chars (x ++ b ++ sl) = b.
Proof.
  intros Hb Hf Hsl Hx. unfold NodePath.basename_chars.
  rewrite scan_trailing by done.
  rewrite take_while_app_all by (by apply slash_free_rev).
  destruct Hx as [->|[d ->]].
  - simpl. by rewrite app_nil_r, rev_involutive.
  - rewrite (rev_app_distr d). simpl. by rewrite app_nil_r, rev_involutive.
Qed.

(** ** The components of a path *)



(** ** [dirname] *)

Lemma app_snoc_slash (d x : chars) :
  (d ++ ["/"%char]) ++ x = d ++ "/"%char :: x.
Proof. by rewrite <- app_assoc. Qed.




Lemma dirname_chars_root b sl :
  b <> [] -> slash_free b -> slashes sl ->
  NodePath.dirname_chars ("/"%char :: b ++ sl) = ["/"%char].
Proof.
  intros Hb Hf Hsl. unfold NodePath.dirname_chars.
  pose proof (scan_trailing [] b sl Hb Hf Hsl) as Hscan.
  simpl in Hscan. rewrite Hscan.
  rewrite drop_while_app_all by (by apply slash_free_rev). done.
Qed.

Lemma dirname_chars_dir c0 d' b sl :
  b <> [] -> slash_free b -> slashes sl ->
  NodePath.dirname_chars (c0 :: d' ++ "/"%char :: b ++ sl)
  = if is_slash c0 && bool_decide (d' = [])
    then ["/"%char; "/"%char] else c0 :: d'.
Proof.
  intros Hb Hf Hsl. unfold NodePath.dirname_chars.
  rewrite <- (app_snoc_slash d' (b ++ sl)).
  rewrite scan_trailing by done.
  rewrite drop_while_app_all by (by apply slash_free_rev).
  rewrite rev_app_distr. simpl. rewrite rev_involutive.
  destruct (is_slash c0); simpl; [|done].
  destruct d' as [|c d']; simpl; [done|].
  rewrite bool_decide_false; [done|]. intros Heq.
  apply (f_equal (@length _)) in Heq. rewrite length_app in Heq. simpl in Heq. lia.
Qed.

(** The last piece of the [dirname] of [d/b] is the last piece of [d]. *)
Lemma dname_dir d b sl :
  b <> [] -> slash_free b -> slashes sl ->
  last (split_chars (NodePath.dirname_chars (d ++ "/"%char :: b ++ sl)))
  = last (split_chars d).
Proof.
  intros Hb Hf Hsl. destruct d as [|c0 d'].
  - simpl app. by rewrite dirname_chars_root.
  - simpl app. rewrite dirname_chars_dir by done.
    destruct (is_slash c0) eqn:Hc; simpl; [|done].
    case_bool_decide as Hd; [|done]. subst d'.
    assert (c0 = "/"%char) as -> by (by apply Ascii.eqb_eq). done.
Qed.



(** ** From character lists back to strings *)

Lemma to_of_chars l : to_chars (of_chars l) = l.
Proof. apply list_ascii_of_string_of_list_ascii. Qed.

Lemma of_to_chars s : of_chars (to_chars s) = s.
Proof. apply string_of_list_ascii_of_string. Qed.

Lemma of_chars_eq l s : of_chars l = s <-> l = to_chars s.
Proof.
  split; intros H; subst; [by rewrite to_of_chars | by rewrite of_to_chars].
Qed.

Lemma last_map {A B} (f : A -> B) (l : list A) :
  last (map f l) = f <$> last l.
Proof.
  induction l as [|x l IH]; [done|]. simpl.
  destruct l; [done|]. exact IH.
Qed.






(* ===================================================================== *)
(** * The upload queue *)
(* ===================================================================== *)

(** [q.process()] in one step: as many waiting tasks as there are free
    workers are started, in the order in which they were pushed. *)
Lemma q_process_from_eq (waiting : list Task) (s : State) :
  let k := min (length waiting) (concurrency - workers (uploadQueue s)) in
  q_process_from waiting s =
    {| contentIDBase := contentIDBase s; envelopeCount := envelopeCount s;
       failureCount := failureCount s; deletionCount := deletionCount s;
       toKeep := toKeep s;
       uploadQueue :=
         {| tasks := drop k waiting;
            workers := workers (uploadQueue s) + k;
            workersList := workersList (uploadQueue s) ++ take k waiting;
            drain := drain (uploadQueue s) |};
       streams := streams s; recons := recons s;
       out := out s ++ start_actions (take k waiting) |}.
Proof.
  revert s. induction waiting as [|task waiting IH]; intros s.
  - simpl. unfold set_uploadQueue. simpl.
    by rewrite Nat.add_0_r, !app_nil_r.
  - cbn [q_process_from].
    destruct (workers (uploadQueue s) <? concurrency)%nat eqn:Hfree.
    + apply Nat.ltb_lt in Hfree. rewrite IH.
      cbn [uploadQueue workers workersList drain tasks set_uploadQueue
           envelopeWorker emit contentIDBase envelopeCount failureCount
           deletionCount toKeep streams recons out length].
      destruct (concurrency - workers (uploadQueue s)) as [|n] eqn:Hn;
        [lia|].
      replace (concurrency - S (workers (uploadQueue s))) with n by lia.
      rewrite <- Nat.succ_min_distr.
      cbn [take drop start_actions flat_map]. f_equal.
      * f_equal; [lia|]. by rewrite <- app_assoc.
      * by rewrite <- !app_assoc.
    + apply Nat.ltb_ge in Hfree.
      replace (concurrency - workers (uploadQueue s)) with 0 by lia.
      rewrite Nat.min_0_r. unfold set_uploadQueue. simpl.
      by rewrite Nat.add_0_r, !app_nil_r.
Qed.

Lemma puts_started_emit a s :
  puts_started (emit a s)
  = puts_started s + (if is_StoreEnvelope a then 1 else 0).
Proof.
  unfold puts_started. simpl. rewrite List.filter_app, length_app. simpl.
  by destruct (is_StoreEnvelope a).
Qed.

Lemma puts_started_start_actions ts :
  length (List.filter is_StoreEnvelope (start_actions ts)) = length ts.
Proof. induction ts as [|t ts IH]; simpl; [done|]. by rewrite IH. Qed.

Lemma qstat_reportError err entryPath description fatal s :
  qstat (reportError err entryPath description fatal s) = qstat s.
Proof. unfold reportError. qstat_frame. Qed.

Lemma qstat_finishRequest_cb err s : qstat (finishRequest_cb err s) = qstat s.
Proof.
  unfold finishRequest_cb, reportCompletion, reportError. qstat_frame.
Qed.

Lemma qstat_finishRequest s : qstat (finishRequest s) = qstat s.
Proof.
  unfold finishRequest, removeDeletedContent.
  repeat case_match; rewrite ?qstat_finishRequest_cb; qstat_frame.
Qed.

Lemma qstat_listContent_cb i existing r s :
  qstat (listContent_cb i existing r s) = qstat s.
Proof.
  unfold listContent_cb.
  repeat case_match; rewrite ?qstat_finishRequest_cb; qstat_frame.
Qed.

Lemma qstat_removeEnvelopes_cb i err s :
  qstat (removeEnvelopes_cb i err s) = qstat s.
Proof.
  unfold removeEnvelopes_cb.
  repeat case_match; rewrite ?qstat_finishRequest_cb; qstat_frame.
Qed.

Lemma qstat_keep_all l s : qstat (keep_all l s) = qstat s.
Proof.
  revert s. unfold keep_all.
  induction l as [|x l IH]; intros s; simpl; [done|]. by rewrite IH.
Qed.

Lemma qstat_on_entry entry s : qstat (settle (on_entry entry s)) = qstat s.
Proof.
  unfold on_entry, handleConfigEntry, handleKeepEntry, handleEnvelopeEntry,
    jsonFromStream.
  qstat_frame.
Qed.

Lemma qstat_settle o : qstat (settle o) = qstat (state_of o).
Proof. destruct o; simpl; qstat_frame. Qed.

Lemma qstat_callback h entry r s :
  qstat (state_of (callback_of h entry r s)) = qstat s.
Proof.
  destruct h; simpl.
  - unfold handleConfigEntry_cb. repeat case_match; simpl;
      rewrite ?qstat_reportError; qstat_frame.
  - unfold handleKeepEntry_cb. repeat case_match; simpl;
      rewrite ?qstat_reportError, ?qstat_keep_all; qstat_frame.
  - unfold handleEnvelopeEntry_cb, q_push. repeat case_match; simpl;
      rewrite ?qstat_reportError; qstat_frame.
Qed.

Lemma qstat_queue_ok s s' :
  qstat s' = qstat s -> queue_ok s ->
  queue_ok s'
  /\ puts_started s' + length (workersList (uploadQueue s))
     = puts_started s + length (workersList (uploadQueue s')).
Proof.
  unfold qstat, queue_ok. intros H Hok. injection H as -> -> ->. lia.
Qed.

Lemma q_process_queue_ok s :
  queue_ok s ->
  queue_ok (q_process s)
  /\ puts_started (q_process s) + length (workersList (uploadQueue s))
     = puts_started s + length (workersList (uploadQueue (q_process s))).
Proof.
  unfold queue_ok, q_process. intros [Hw Hle].
  rewrite q_process_from_eq. cbv zeta. unfold puts_started.
  cbn [uploadQueue workers workersList out].
  rewrite List.filter_app, !length_app, puts_started_start_actions.
  rewrite !length_take. lia.
Qed.

Section QueueBound.

Variable Buffer_toString : Buffer -> string.
Variable JSON_parse : string -> Error + json.

Lemma qstat_jsonFromStream_end chunks size h entry s :
  qstat (settle (jsonFromStream_end Buffer_toString JSON_parse chunks size
                   (callback_of h entry) s)) = qstat s.
Proof.
  rewrite qstat_settle. unfold jsonFromStream_end.
  destruct (materialize _ _ _ _) as [err|payload].
  - apply qstat_callback.
  - pose proof (qstat_callback h entry (inr payload) s) as H.
    destruct (callback_of h entry (inr payload) s) as [s'|e s']; [done|].
    simpl in H. by rewrite qstat_callback.
Qed.

(** One callback keeps the queue within its bound, and only a callback
    of [storeEnvelope] takes a running storage operation away. *)
Lemma step_queue_ok ev s s' :
  queue_ok s -> step Buffer_toString JSON_parse ev s = Some s' ->
  queue_ok s'
  /\ puts_started s' + length (workersList (uploadQueue s))
     = puts_started s + length (workersList (uploadQueue s'))
       + (if is_EvStored ev then 1 else 0).
Proof.
  intros Hok Hstep.
  destruct ev as [entry|i chunk|i|i err| |i err|err| |i r|i err];
    simpl in Hstep; simpl is_EvStored; cbv iota; rewrite ?Nat.add_0_r.
  - injection Hstep as <-. apply qstat_queue_ok; [|done].
    apply qstat_on_entry.
  - destruct (streams s !! i) as [l|]; [|done]. injection Hstep as <-.
    by apply qstat_queue_ok.
  - destruct (streams s !! i) as [l|]; [|done]. injection Hstep as <-.
    apply qstat_queue_ok; [|done].
    by rewrite qstat_jsonFromStream_end.
  - destruct (streams s !! i) as [l|]; [|done]. injection Hstep as <-.
    apply qstat_queue_ok; [|done].
    by rewrite qstat_settle, qstat_callback.
  - injection Hstep as <-. by apply q_process_queue_ok.
  - destruct (workersList (uploadQueue s) !! i) as [task|] eqn:Hi; [|done].
    injection Hstep as <-.
    pose proof (lookup_lt_Some _ _ _ Hi) as Hlt.
    set (s0 := match err with
               | Some e =>
                   reportError e None "storing metadata envelope" false
                     (set_failureCount (S (failureCount s)) s)
               | None =>
                   emit (Log Debug "Envelope stored successfully"
                           (PStored (contentID task) (S (envelopeCount s))
                              (failureCount s)))
                     (set_envelopeCount (S (envelopeCount s)) s)
               end).
    assert (storeEnvelope_cb i task err s = q_next i s0) as ->
      by (by destruct err).
    assert (qstat s0 = qstat s) as Hs0.
    { subst s0. destruct err; [rewrite qstat_reportError|]; qstat_frame. }
    clearbody s0. unfold qstat in Hs0. injection Hs0 as Hw Hl Hp.
    unfold q_next.
    match goal with
    | |- context [q_process ?x] => set (s2 := x)
    end.
    assert (qstat s2
            = (workers (uploadQueue s0) - 1,
               delete i (workersList (uploadQueue s0)), puts_started s0))
      as Hs2.
    { subst s2. case_match; [|done].
      unfold q_drain. case_match; [done|]. by rewrite qstat_finishRequest. }
    clearbody s2. unfold qstat in Hs2. injection Hs2 as Hw2 Hl2 Hp2.
    destruct Hok as [Hok1 Hok2].
    assert (queue_ok s2) as Hok'.
    { unfold queue_ok. rewrite Hw2, Hl2, Hw, Hl, length_delete by
        (by eexists). lia. }
    destruct (q_process_queue_ok s2 Hok') as [Hq Hcount].
    split; [done|].
    rewrite Hl2, Hl, length_delete in Hcount by (by eexists). lia.
  - injection Hstep as <-. apply qstat_queue_ok; [|done].
    unfold on_error. qstat_frame.
  - injection Hstep as <-. apply qstat_queue_ok; [|done].
    unfold on_end. case_match; [done|]. apply qstat_finishRequest.
  - destruct (recons s !! i) as [[existing|]|]; try done.
    injection Hstep as <-. apply qstat_queue_ok; [|done].
    apply qstat_listContent_cb.
  - destruct (recons s !! i) as [[existing|]|]; try done.
    injection Hstep as <-. apply qstat_queue_ok; [|done].
    apply qstat_removeEnvelopes_cb.
Qed.

End QueueBound.

Section QueueBoundRun.

Variable Buffer_toString : Buffer -> string.
Variable JSON_parse : string -> Error + json.

Lemma run_queue_ok evs s0 s :
  queue_ok s0 -> run Buffer_toString JSON_parse evs s0 = Some s ->
  queue_ok s
  /\ puts_started s + length (workersList (uploadQueue s0))
     = puts_started s0 + length (workersList (uploadQueue s))
       + puts_called_back evs.
Proof.
  revert s0. induction evs as [|ev evs IH]; intros s0 Hok Hrun.
  - injection Hrun as <-. unfold puts_called_back. simpl. split; [done|lia].
  - simpl in Hrun.
    destruct (step _ _ ev s0) as [s1|] eqn:Hstep; [|done]. simpl in Hrun.
    destruct (step_queue_ok _ _ _ _ _ Hok Hstep) as [Hok1 H1].
    destruct (IH _ Hok1 Hrun) as [Hok2 H2]. split; [done|].
    unfold puts_called_back in *. simpl.
    destruct (is_EvStored ev); simpl; lia.
Qed.

(** C9. The upload queue never runs more than 10 storage operations at
    once: after any callbacks of a request, the [storeEnvelope] calls
    that have been made and have not called back are exactly the tasks
    of the running workers, and there are at most 10 of them, however
    many tasks wait. *)
Theorem at_most_ten_puts_in_flight (evs : list Event) (s : State) :
  run Buffer_toString JSON_parse evs init = Some s ->
  puts_started s
  = puts_called_back evs + length (workersList (uploadQueue s))
  /\ puts_started s - puts_called_back evs <= 10.
Proof.
  intros Hrun.
  assert (queue_ok init) as Hinit by (unfold queue_ok, concurrency; simpl; lia).
  destruct (run_queue_ok evs init s Hinit Hrun) as [[Hw Hle] Hcount].
  unfold concurrency in Hle. unfold puts_started in *. simpl in Hcount. lia.
Qed.

End QueueBoundRun.

(* ===================================================================== *)
(** * The keep-set and the removals *)
(* ===================================================================== *)

Lemma grows_refl m : grows m m.
Proof. by exists []. Qed.

Lemma grows_trans m1 m2 m3 : grows m1 m2 -> grows m2 m3 -> grows m1 m3.
Proof.
  intros [ks1 ->] [ks2 ->]. exists (ks1 ++ ks2). by rewrite fold_left_app.
Qed.

Lemma calm_refl s : calm s s.
Proof. split; [apply grows_refl|]. exists []. by rewrite app_nil_r. Qed.

Lemma calm_trans s1 s2 s3 : calm s1 s2 -> calm s2 s3 -> calm s1 s3.
Proof.
  intros [Hg1 (n1 & Ho1 & Hn1)] [Hg2 (n2 & Ho2 & Hn2)].
  split; [by eapply grows_trans|].
  exists (n1 ++ n2). rewrite Ho2, Ho1, app_assoc. split; [done|].
  by apply Forall_app.
Qed.

Lemma obj_set_kept m k id :
  obj_get_truthy m id = true -> obj_get_truthy (obj_set m k true) id = true.
Proof.
  unfold obj_get_truthy, obj_set. intros H.
  destruct (String.eqb k "__proto__"); [done|].
  destruct (decide (k = id)) as [->|Hne].
  - by rewrite lookup_insert_eq.
  - by rewrite lookup_insert_ne.
Qed.



Lemma grows_kept m m' id :
  grows m m' -> obj_get_truthy m id = true -> obj_get_truthy m' id = true.
Proof.
  intros [ks ->]. revert m. induction ks as [|k ks IH]; intros m H; [done|].
  simpl. apply IH. by apply obj_set_kept.
Qed.


Lemma from_toKeep_spares m id a :
  obj_get_truthy m id = true -> from_toKeep m a -> spares id a.
Proof.
  intros Hk. destruct a; simpl; try done. intros [existing ->] Hin.
  unfold toDelete_of in Hin. apply filter_In in Hin as [_ Hf].
  by rewrite Hk in Hf.
Qed.

Lemma no_removal_from_toKeep m a : no_removal a -> from_toKeep m a.
Proof. by destruct a. Qed.

Lemma calm_reportError err entryPath description fatal s :
  calm s (reportError err entryPath description fatal s).
Proof. unfold reportError. calm_frame. Qed.

Lemma calm_finishRequest_cb err s : calm s (finishRequest_cb err s).
Proof. unfold finishRequest_cb, reportCompletion, reportError. calm_frame. Qed.

Lemma calm_finishRequest s : calm s (finishRequest s).
Proof.
  unfold finishRequest, removeDeletedContent.
  repeat case_match;
    try (eapply calm_trans; [|apply calm_finishRequest_cb]); calm_frame.
Qed.

Lemma calm_removeEnvelopes_cb i err s : calm s (removeEnvelopes_cb i err s).
Proof.
  unfold removeEnvelopes_cb.
  repeat case_match;
    (eapply calm_trans; [|apply calm_finishRequest_cb]); calm_frame.
Qed.

Lemma no_removal_start_actions ts : Forall no_removal (start_actions ts).
Proof. induction ts as [|t ts IH]; simpl; by repeat constructor. Qed.

Lemma calm_q_process s : calm s (q_process s).
Proof.
  unfold q_process. rewrite q_process_from_eq. cbv zeta.
  split; [by exists []|]. eexists. split; [reflexivity|].
  apply no_removal_start_actions.
Qed.

Lemma calm_q_next i s : calm s (q_next i s).
Proof.
  unfold q_next. eapply calm_trans; [|apply calm_q_process].
  case_match; [|calm_frame].
  unfold q_drain. case_match; [calm_frame|].
  eapply calm_trans; [|apply calm_finishRequest]. calm_frame.
Qed.

Lemma calm_storeEnvelope_cb i task err s :
  calm s (storeEnvelope_cb i task err s).
Proof.
  unfold storeEnvelope_cb. destruct err as [e|].
  - eapply calm_trans; [|apply calm_q_next].
    eapply calm_trans; [|apply calm_reportError]. calm_frame.
  - eapply calm_trans; [|apply calm_q_next]. calm_frame.
Qed.

Lemma calm_on_end s : calm s (on_end s).
Proof. unfold on_end. case_match; [calm_frame|apply calm_finishRequest]. Qed.

Lemma calm_on_error err s : calm s (on_error err s).
Proof. unfold on_error. calm_frame. Qed.

Lemma calm_keep_all l s : calm s (keep_all l s).
Proof.
  unfold keep_all. revert s. induction l as [|x l IH]; intros s; simpl.
  - apply calm_refl.
  - eapply calm_trans; [|apply IH].
    split; [by exists [toPropertyKey x]|]. exists []. by rewrite app_nil_r.
Qed.

Lemma calm_on_entry entry s : calm s (state_of (on_entry entry s)).
Proof.
  unfold on_entry, handleConfigEntry, handleKeepEntry, handleEnvelopeEntry,
    jsonFromStream.
  repeat case_match; simpl; try calm_frame.
  split; [by eexists [_]|]. eexists. simpl. split; [reflexivity|].
  by repeat constructor.
Qed.

Lemma calm_callback h entry r s : calm s (state_of (callback_of h entry r s)).
Proof.
  destruct h; simpl.
  - unfold handleConfigEntry_cb.
    repeat case_match; simpl; try apply calm_reportError; calm_frame.
  - unfold handleKeepEntry_cb.
    repeat case_match; simpl;
      try apply calm_reportError; try apply calm_keep_all; calm_frame.
  - unfold handleEnvelopeEntry_cb, q_push, reportError. calm_frame.
Qed.

Lemma calm_settle o : calm (state_of o) (settle o).
Proof. destruct o; simpl; [apply calm_refl|calm_frame]. Qed.

Section KeepSet.

Variable Buffer_toString : Buffer -> string.
Variable JSON_parse : string -> Error + json.

Lemma calm_jsonFromStream_end chunks size h entry s :
  calm s (settle (jsonFromStream_end Buffer_toString JSON_parse chunks size
                    (callback_of h entry) s)).
Proof.
  eapply calm_trans; [|apply calm_settle]. unfold jsonFromStream_end.
  destruct (materialize _ _ _ _) as [err|payload].
  - apply calm_callback.
  - pose proof (calm_callback h entry (inr payload) s) as H.
    destruct (callback_of h entry (inr payload) s) as [s'|e s']; [done|].
    simpl in H. eapply calm_trans; [exact H|apply calm_callback].
Qed.

(** One callback: the keep-set only grows, and a removal that is asked
    for is the filter applied to the keep-set of that moment. *)
Lemma step_evolves ev s s' :
  step Buffer_toString JSON_parse ev s = Some s' ->
  grows (toKeep s) (toKeep s')
  /\ exists new, out s' = out s ++ new
                 /\ Forall (from_toKeep (toKeep s)) new.
Proof.
  intros Hstep.
  assert (forall s', calm s s' ->
          grows (toKeep s) (toKeep s')
          /\ exists new, out s' = out s ++ new
                         /\ Forall (from_toKeep (toKeep s)) new) as Hcalm.
  { intros s'' [Hg (new & Ho & Hn)]. split; [done|].
    exists new. split; [done|].
    eapply Forall_impl; [exact Hn|]. intros a. apply no_removal_from_toKeep. }
  destruct ev as [entry|i chunk|i|i err| |i err|err| |i r|i err];
    simpl in Hstep.
  - injection Hstep as <-. apply Hcalm.
    eapply calm_trans; [apply calm_on_entry|apply calm_settle].
  - destruct (streams s !! i) as [l|]; [|done]. injection Hstep as <-.
    apply Hcalm. calm_frame.
  - destruct (streams s !! i) as [l|]; [|done]. injection Hstep as <-.
    apply Hcalm. eapply calm_trans; [|apply calm_jsonFromStream_end].
    calm_frame.
  - destruct (streams s !! i) as [l|]; [|done]. injection Hstep as <-.
    apply Hcalm. eapply calm_trans; [|apply calm_settle].
    eapply calm_trans; [|apply calm_callback]. calm_frame.
  - injection Hstep as <-. apply Hcalm, calm_q_process.
  - destruct (workersList (uploadQueue s) !! i) as [task|]; [|done].
    injection Hstep as <-. apply Hcalm, calm_storeEnvelope_cb.
  - injection Hstep as <-. apply Hcalm, calm_on_error.
  - injection Hstep as <-. apply Hcalm, calm_on_end.
  - destruct (recons s !! i) as [[existing|]|]; try done.
    injection Hstep as <-. unfold listContent_cb.
    destruct r as [err|ids].
    + apply Hcalm. eapply calm_trans; [|apply calm_finishRequest_cb].
      calm_frame.
    + destruct (0 <? length ids)%nat; [apply Hcalm; calm_frame|].
      cbv zeta. simpl. split; [apply grows_refl|].
      eexists. rewrite <- app_assoc. split; [reflexivity|].
      repeat constructor. by exists existing.
  - destruct (recons s !! i) as [[existing|]|]; try done.
    injection Hstep as <-. apply Hcalm, calm_removeEnvelopes_cb.
Qed.

(** An ID that the test [toKeep[id]] accepts is accepted for the rest of
    the request, and no removal asked for from then on names it. *)
Lemma run_spares id evs s0 s :
  kept id s0 -> run Buffer_toString JSON_parse evs s0 = Some s ->
  kept id s
  /\ exists new, out s = out s0 ++ new /\ Forall (spares id) new.
Proof.
  revert s0. induction evs as [|ev evs IH]; intros s0 Hk Hrun.
  - injection Hrun as <-. split; [done|]. exists [].
    by rewrite app_nil_r.
  - simpl in Hrun.
    destruct (step _ _ ev s0) as [s1|] eqn:Hstep; [|done]. simpl in Hrun.
    destruct (step_evolves _ _ _ Hstep) as [Hg (n1 & Ho1 & Hn1)].
    assert (kept id s1) as Hk1 by (by eapply grows_kept).
    destruct (IH _ Hk1 Hrun) as [Hk2 (n2 & Ho2 & Hn2)].
    split; [done|]. exists (n1 ++ n2).
    rewrite Ho2, Ho1, app_assoc. split; [done|].
    apply Forall_app. split; [|done].
    eapply Forall_impl; [exact Hn1|]. intros a.
    by apply from_toKeep_spares.
Qed.



(** C10. A content ID that is the name of a property which plain
    objects inherit from [Object.prototype] passes the test
    [toKeep[id]] throughout every request, whatever the entries of the
    tarball are, and so no removal ever names it. *)
Theorem prototype_names_are_never_deleted
    (id : string) (evs : list Event) (s : State) :
  In id Object_prototype_names ->
  run Buffer_toString JSON_parse evs init = Some s ->
  toKeep init !! id = None
  /\ kept id s
  /\ forall ids, In (RemoveEnvelopes ids) (out s) -> ~ In id ids.
Proof.
  intros Hid Hrun.
  assert (kept id init) as Hk.
  { unfold kept, obj_get_truthy. simpl. rewrite lookup_empty.
    apply bool_decide_eq_true. by apply list_elem_of_In. }
  destruct (run_spares id _ _ _ Hk Hrun) as [Hk' (new & Ho & Hn)].
  split; [apply lookup_empty|]. split; [done|].
  intros ids Hin. simpl in Ho. subst new.
  rewrite Forall_forall in Hn. apply list_elem_of_In in Hin.
  exact (Hn _ Hin).
Qed.

End KeepSet.

(* ===================================================================== *)
(** * Errors of single entries *)
(* ===================================================================== *)

Section EntryErrors.

Variable Buffer_toString : Buffer -> string.
Variable JSON_parse : string -> Error + json.

(** C8. An entry whose text does not parse, or a config or keep entry
    without its required key, does not end the request: the callback
    logs a warning and leaves everything else as it was, so the next
    entries are handled as before.  For an envelope entry
    [failureCount] goes up by one; for a config or keep entry no counter
    changes. *)
Theorem entry_errors_are_not_fatal (i : nat) (l : Listener) (s s' : State) :
  streams s !! i = Some l ->
  step Buffer_toString JSON_parse (EvStreamEnd i) s = Some s' ->
  match l_handler l,
        materialize Buffer_toString JSON_parse (l_chunks l)
          (entry_size (l_entry l)) with
  | HEnvelope _, inl err =>
      failureCount s' = S (failureCount s)
      /\ only_logged i l "parsing metadata envelope" err s s'
  | HEnvelope _, inr _ => True
  | HConfig, inl err =>
      failureCount s' = failureCount s
      /\ only_logged i l "parsing config.json" err s s'
  | HConfig, inr config =>
      forall v, get_member config "contentIDBase" = inr v ->
                truthy_opt v = false ->
                failureCount s' = failureCount s
                /\ only_logged i l "parsing config.json"
                     missing_contentIDBase s s'
  | HKeep, inl err =>
      failureCount s' = failureCount s
      /\ only_logged i l "parsing keep.json" err s s'
  | HKeep, inr keep =>
      forall v, get_member keep "keep" = inr v ->
                truthy_opt v = false ->
                failureCount s' = failureCount s
                /\ only_logged i l "parsing keep.json" missing_keep s s'
  end.
Proof.
  intros Hl Hstep. simpl in Hstep. rewrite Hl in Hstep. simpl in Hstep.
  injection Hstep as <-. unfold jsonFromStream_end.
  destruct (l_handler l) as [| |id];
    destruct (materialize _ _ _ _) as [err|payload]; simpl; try done.
  - intros v Hv Hfalsy. unfold handleConfigEntry_cb.
    rewrite Hv, Hfalsy. simpl. done.
  - intros v Hv Hfalsy. unfold handleKeepEntry_cb. rewrite Hv.
    destruct v as [kv|]; simpl in *; [by rewrite Hfalsy|done].
Qed.

End EntryErrors.

(* ===================================================================== *)
(** * The materializer *)
(* ===================================================================== *)




Section Materializer.

Variable Buffer_toString : Buffer -> string.
Variable JSON_parse : string -> Error + json.


End Materializer.


(* ===================================================================== *)
(** * When the removal of deleted content begins *)
(* ===================================================================== *)

Lemma still_refl s : still s s.
Proof. exists []. by rewrite app_nil_r. Qed.

Lemma still_trans s1 s2 s3 : still s1 s2 -> still s2 s3 -> still s1 s3.
Proof.
  intros (n1 & Ho1 & Hn1) (n2 & Ho2 & Hn2).
  exists (n1 ++ n2). rewrite Ho2, Ho1, app_assoc. split; [done|].
  by apply Forall_app.
Qed.

Lemma still_reportError err entryPath description fatal s :
  still s (reportError err entryPath description fatal s).
Proof. unfold reportError. still_frame. Qed.

Lemma still_finishRequest_cb err s : still s (finishRequest_cb err s).
Proof. unfold finishRequest_cb, reportCompletion, reportError. still_frame. Qed.

Lemma still_listContent_cb i existing r s :
  still s (listContent_cb i existing r s).
Proof.
  unfold listContent_cb.
  repeat case_match;
    try (eapply still_trans; [|apply still_finishRequest_cb]); still_frame.
Qed.

Lemma still_removeEnvelopes_cb i err s : still s (removeEnvelopes_cb i err s).
Proof.
  unfold removeEnvelopes_cb.
  repeat case_match;
    (eapply still_trans; [|apply still_finishRequest_cb]); still_frame.
Qed.

Lemma still_start_actions ts :
  Forall (fun a => starts_reconciliation a = false) (start_actions ts).
Proof. induction ts as [|t ts IH]; simpl; by repeat constructor. Qed.

Lemma still_q_process s : still s (q_process s).
Proof.
  unfold q_process. rewrite q_process_from_eq. cbv zeta.
  eexists. split; [reflexivity|]. apply still_start_actions.
Qed.

Lemma still_keep_all l s : still s (keep_all l s).
Proof.
  unfold keep_all. revert s. induction l as [|x l IH]; intros s; simpl.
  - apply still_refl.
  - eapply still_trans; [|apply IH]. exists []. by rewrite app_nil_r.
Qed.

Lemma still_on_entry entry s : still s (settle (on_entry entry s)).
Proof.
  unfold on_entry, handleConfigEntry, handleKeepEntry, handleEnvelopeEntry,
    jsonFromStream.
  still_frame.
Qed.

Lemma still_callback h entry r s : still s (state_of (callback_of h entry r s)).
Proof.
  destruct h; simpl.
  - unfold handleConfigEntry_cb.
    repeat case_match; simpl; try apply still_reportError; still_frame.
  - unfold handleKeepEntry_cb.
    repeat case_match; simpl;
      try apply still_reportError; try apply still_keep_all; still_frame.
  - unfold handleEnvelopeEntry_cb, q_push, reportError. still_frame.
Qed.

Lemma still_settle o : still (state_of o) (settle o).
Proof. destruct o; simpl; [apply still_refl|still_frame]. Qed.

Lemma still_not_started s s' new :
  still s s' -> out s' = out s ++ new ->
  ~ Exists (fun a => starts_reconciliation a = true) new.
Proof.
  intros (new0 & Ho & Hn) Hout Hex.
  rewrite Ho in Hout. apply app_inv_head in Hout. subst new0.
  apply Exists_exists in Hex as (a & Ha & Hstart).
  rewrite Forall_forall in Hn. specialize (Hn a Ha). congruence.
Qed.

Section ReconciliationStart.

Variable Buffer_toString : Buffer -> string.
Variable JSON_parse : string -> Error + json.

Lemma still_jsonFromStream_end chunks size h entry s :
  still s (settle (jsonFromStream_end Buffer_toString JSON_parse chunks size
                     (callback_of h entry) s)).
Proof.
  eapply still_trans; [|apply still_settle]. unfold jsonFromStream_end.
  destruct (materialize _ _ _ _) as [err|payload].
  - apply still_callback.
  - pose proof (still_callback h entry (inr payload) s) as H.
    destruct (callback_of h entry (inr payload) s) as [s'|e s']; [done|].
    simpl in H. eapply still_trans; [exact H|apply still_callback].
Qed.

(** [removeDeletedContent] is entered in two places only: in the [end]
    callback when no worker runs, whatever waits in the queue; and in a
    callback of [storeEnvelope] that leaves the queue without waiting
    tasks and without running workers. *)
Lemma reconciliation_start_points ev s s' new :
  step Buffer_toString JSON_parse ev s = Some s' ->
  out s' = out s ++ new ->
  Exists (fun a => starts_reconciliation a = true) new ->
  (ev = EvParseEnd /\ workers (uploadQueue s) = 0)
  \/ (exists i err,
         ev = EvStored i err
         /\ drain (uploadQueue s) = FinishRequest
         /\ tasks (uploadQueue s') = []
         /\ workers (uploadQueue s') = 0).
Proof.
  intros Hstep Hout Hex.
  assert (still s s' -> False) as Hstill.
  { intros H. by eapply still_not_started. }
  destruct ev as [entry|i chunk|i|i err| |i err|err| |i r|i err];
    simpl in Hstep.
  - injection Hstep as <-. destruct Hstill. apply still_on_entry.
  - destruct (streams s !! i) as [l|]; [|done]. injection Hstep as <-.
    destruct Hstill. still_frame.
  - destruct (streams s !! i) as [l|]; [|done]. injection Hstep as <-.
    destruct Hstill.
    eapply still_trans; [|apply still_jsonFromStream_end]. still_frame.
  - destruct (streams s !! i) as [l|]; [|done]. injection Hstep as <-.
    destruct Hstill. eapply still_trans; [|apply still_settle].
    eapply still_trans; [|apply still_callback]. still_frame.
  - injection Hstep as <-. destruct Hstill. apply still_q_process.
  - destruct (workersList (uploadQueue s) !! i) as [task|]; [|done].
    injection Hstep as <-. right. exists i, err. split; [done|].
    set (s0 := match err with
               | Some e =>
                   reportError e None "storing metadata envelope" false
                     (set_failureCount (S (failureCount s)) s)
               | None =>
                   emit (Log Debug "Envelope stored successfully"
                           (PStored (contentID task) (S (envelopeCount s))
                              (failureCount s)))
                     (set_envelopeCount (S (envelopeCount s)) s)
               end) in *.
    assert (storeEnvelope_cb i task err s = q_next i s0) as Heq
      by (by destruct err).
    rewrite Heq in *.
    assert (still s s0 /\ uploadQueue s0 = uploadQueue s) as [Hs0 Hq0].
    { subst s0. destruct err; (split; [|done]).
      - eapply still_trans; [|apply still_reportError]. still_frame.
      - still_frame. }
    clearbody s0. unfold q_next in *.
    destruct (length (tasks (uploadQueue s0)) + (workers (uploadQueue s0) - 1)
              =? 0)%nat eqn:Hidle; cbn [uploadQueue set_uploadQueue tasks
                                         workers] in *; rewrite Hidle in *.
    + apply Nat.eqb_eq in Hidle.
      assert (tasks (uploadQueue s0) = []) as Htasks
        by (destruct (tasks (uploadQueue s0)); [done|simpl in Hidle; lia]).
      unfold q_drain in *. cbn [uploadQueue set_uploadQueue drain] in *.
      rewrite <- Hq0.
      destruct (drain (uploadQueue s0)) eqn:Hdrain.
      * destruct Hstill. eapply still_trans; [exact Hs0|].
        eapply still_trans; [|apply still_q_process]. still_frame.
      * split; [done|].
        unfold q_process. rewrite q_process_from_eq. cbv zeta.
        cbn [uploadQueue tasks workers].
        match goal with
        | |- context [finishRequest ?x] =>
            assert (uploadQueue (finishRequest x) = uploadQueue x) as Hfq
        end.
        { unfold finishRequest, removeDeletedContent, finishRequest_cb,
            reportCompletion. by repeat case_match. }
        rewrite Hfq. cbn [uploadQueue set_uploadQueue tasks workers].
        rewrite Htasks. simpl. split; [done|]. lia.
    + destruct Hstill. eapply still_trans; [exact Hs0|].
      eapply still_trans; [|apply still_q_process]. still_frame.
  - injection Hstep as <-. destruct Hstill. unfold on_error. still_frame.
  - injection Hstep as <-. left. split; [done|].
    unfold on_end, q_running in *.
    destruct (0 <? workers (uploadQueue s))%nat eqn:Hrun.
    + destruct Hstill. still_frame.
    + apply Nat.ltb_ge in Hrun. lia.
  - destruct (recons s !! i) as [[existing|]|]; try done.
    injection Hstep as <-. destruct Hstill. apply still_listContent_cb.
  - destruct (recons s !! i) as [[existing|]|]; try done.
    injection Hstep as <-. destruct Hstill. apply still_removeEnvelopes_cb.
Qed.

End ReconciliationStart.

(* ===================================================================== *)
(** * The end of the request *)
(* ===================================================================== *)

Section FatalErrors.

Variable Buffer_toString : Buffer -> string.
Variable JSON_parse : string -> Error + json.

(** C5, as the code has it.  When the listing or the removal fails, the
    error is logged as fatal and handed to [next] with status code 400.
    That is a client error, the class of the answer to a corrupted
    tarball, which is sent with status 400 as well. *)
Theorem reconciliation_failure_is_reported_as_400
    (s : State) (ev : Event) (err : Error) :
  reconciliation_fails s ev err ->
  (exists s' rest,
      step Buffer_toString JSON_parse ev s = Some s'
      /\ out s' = out s
           ++ [Log Err "Fatal bulk upload problem: deleted content removal"
                 (PProblem None (message err) 400);
               Next (Some (set_statusCode 400 err))] ++ rest)
  /\ error_status (Next (Some (set_statusCode 400 err))) = Some 400
  /\ status_class 400 = ClientError
  /\ (forall e s0, exists pre post,
        out (on_error e s0) = pre ++ ResSend 400 (Some e) :: post).
Proof.
  intros Hfails.
  split; [|split; [done|split; [done|]]].
  - destruct Hfails as (i & [(existing & Hi & ->)|(Hi & ->)]);
      cbn [step]; rewrite Hi; eexists _, _; (split; [reflexivity|]);
      unfold listContent_cb, removeEnvelopes_cb, finishRequest_cb,
        reportCompletion, reportError;
      cbn [out emit set_recons]; rewrite <- !app_assoc; reflexivity.
  - intros e s0.
    exists (out s0 ++ [Log Info "Corrupted tarball uploaded"
                         (PCorrupted (message e))]), [Next None].
    unfold on_error. cbn [out emit]. by rewrite <- !app_assoc.
Qed.

End FatalErrors.

(** C5, as the specification has it, fails: the tarball holds a config
    entry, the listing fails, and the only error that answers the request
    has status 400, which is not a server error. *)
Lemma reconciliation_failure_is_not_a_server_error :
  (omap error_status
     <$> (out <$> sample_run (Sample.configOnly
                                ++ [EvListPage 0 (inl Sample.storeError)])))
  = Some [400]
  /\ status_class 400 <> ServerError.
Proof. split; [vm_compute; reflexivity | discriminate]. Qed.

(** What the callback of [finishRequest] does with an error: the error
    path and then the success path. *)
Lemma finishRequest_cb_error err s :
  out (finishRequest_cb (Some err) s)
  = out s
    ++ [ Log Err "Fatal bulk upload problem: deleted content removal"
           (PProblem None (message err) 400);
         Next (Some (set_statusCode 400 err));
         Log Info "Bulk content upload completed successfully."
           (PCompleted (envelopeCount s) (failureCount s) (deletionCount s));
         ResSend 204 None;
         Next None ].
Proof.
  unfold finishRequest_cb, reportCompletion, reportError.
  cbn [out emit envelopeCount failureCount deletionCount].
  by rewrite <- !app_assoc.
Qed.

(** C1: a request whose listing fails.  The tarball holds a config entry
    and [storage.listContent] calls back with an error.  The callback of
    [finishRequest] reports the error with [next(err)] and then goes on to
    [reportCompletion], which logs the success, sends 204 and calls
    [next()] again: both outcomes happen. *)
Theorem failed_reconciliation_also_reports_completion :
  let trace := out <$> sample_run (Sample.configOnly
                                     ++ [EvListPage 0 (inl Sample.storeError)])
  in
  trace
  = Some
      [ Log Debug "Received entry for path" (PPath "metadata/config.json");
        ListContent (JStr "to");
        Log Err "Fatal bulk upload problem: deleted content removal"
          (PProblem None "storage unavailable" 400);
        Next (Some (set_statusCode 400 Sample.storeError));
        Log Info "Bulk content upload completed successfully."
          (PCompleted 0 0 0);
        ResSend 204 None;
        Next None ]
  /\ existsb is_error_response <$> trace = Some true
  /\ existsb is_success_response <$> trace = Some true.
Proof. vm_compute. by repeat split. Qed.

(** C3: a request whose last entry is an envelope.  The envelope is read
    and pushed on the upload queue; the [end] of the tarball arrives
    before the queue's deferred [process] has started the task.  No worker
    runs then, so [uploadQueue.running()] is 0 and [finishRequest] is
    called at once: the listing for the removal is asked for while the
    task still waits and [storeEnvelope] has not been called. *)
Theorem reconciliation_starts_with_a_task_waiting :
  ((fun s => (tasks (uploadQueue s), workers (uploadQueue s), out s))
     <$> sample_run
           (Sample.configRead ++ Sample.envelopeRead ++ [EvParseEnd]))
  = Some
      ([Sample.envelopeTask], 0,
       [ Log Debug "Received entry for path" (PPath "metadata/config.json");
         Log Debug "Received entry for path"
           (PPath "envelopes/to%2Fa.json");
         ListContent (JStr "to") ]).
Proof. vm_compute. reflexivity. Qed.

(** What the last page of a listing does, for every state: the IDs that
    the test [toKeep[id]] rejects are removed and counted.  The test
    accepts the IDs that were assigned in [toKeep] and, besides them, the
    names that [toKeep] inherits. *)
Lemma last_page_removes (Buffer_toString : Buffer -> string)
    (JSON_parse : string -> Error + json)
    (i : nat) (existing : list string) (s : State) :
  recons s !! i = Some (Listing existing) ->
  all_true (toKeep s) ->
  exists s',
    step Buffer_toString JSON_parse (EvListPage i (inr [])) s = Some s'
    /\ deletionCount s' = length (toDelete_of (toKeep s) existing)
    /\ out s' = out s
         ++ [ Log Debug "Deleting removed envelopes."
                (PDeletionCount (length (toDelete_of (toKeep s) existing)));
              RemoveEnvelopes (toDelete_of (toKeep s) existing) ]
    /\ forall id,
         In id (toDelete_of (toKeep s) existing)
         <-> In id existing
             /\ toKeep s !! id = None
             /\ ~ In id Object_prototype_names.
Proof.
  intros Hi Htrue. cbn [step]. rewrite Hi. eexists. split; [reflexivity|].
  unfold listContent_cb. cbn [length Nat.ltb Nat.leb].
  cbn [deletionCount out emit set_recons set_deletionCount toKeep].
  split; [done|]. split; [by rewrite <- app_assoc|].
  intros id. unfold toDelete_of. rewrite filter_In. unfold obj_get_truthy.
  split.
  - intros [Hin Hf]. split; [done|].
    destruct (toKeep s !! id) as [b|] eqn:Hb.
    + rewrite (Htrue _ _ Hb) in Hf. done.
    + split; [done|]. intros Hproto. apply list_elem_of_In in Hproto.
      by rewrite bool_decide_true in Hf.
  - intros (Hin & Hnone & Hproto). split; [done|]. rewrite Hnone.
    rewrite bool_decide_false; [done|]. intros H.
    by apply list_elem_of_In in H.
Qed.

(** C4: a request that removes content.  The tarball holds a config entry
    only, so nothing was added to the keep-set, and the store lists the
    IDs [toString] and [tomato].  The set difference is both IDs; the
    filter [!toKeep[id]] lets only [tomato] through, because [toKeep] is a
    plain object and [toKeep["toString"]] is the function it inherits. *)
Theorem reconciliation_spares_a_prototype_name :
  ((fun s => (toKeep s, deletionCount s, out s))
     <$> sample_run Sample.listsPrototypeName)
  = Some
      (∅, 1,
       [ Log Debug "Received entry for path" (PPath "metadata/config.json");
         ListContent (JStr "to");
         ListNext;
         Log Debug "Deleting removed envelopes." (PDeletionCount 1);
         RemoveEnvelopes ["tomato"] ]).
Proof. vm_compute. reflexivity. Qed.

(* ===================================================================== *)
(** * The theorems at sample requests *)
(* ===================================================================== *)

(** Eleven envelopes were pushed: ten [storeEnvelope] calls run and one
    task waits. *)
Lemma at_most_ten_puts_in_flight_witness :
  exists s,
    sample_run Sample.elevenEnvelopes = Some s
    /\ (puts_started s
        = puts_called_back Sample.elevenEnvelopes
          + length (workersList (uploadQueue s))
        /\ puts_started s - puts_called_back Sample.elevenEnvelopes <= 10)
    /\ puts_started s = 10
    /\ length (tasks (uploadQueue s)) = 1.
Proof.
  eexists. split; [vm_compute; reflexivity|].
  split; [|split; vm_compute; reflexivity].
  apply (at_most_ten_puts_in_flight Sample.toString Sample.parse).
  vm_compute. reflexivity.
Defined.


(** The store lists [toString]; the removal names [tomato] only. *)
Lemma prototype_names_are_never_deleted_witness :
  exists s,
    sample_run Sample.listsPrototypeName = Some s
    /\ In (RemoveEnvelopes ["tomato"]) (out s)
    /\ (toKeep init !! "toString" = None
        /\ kept "toString" s
        /\ forall ids, In (RemoveEnvelopes ids) (out s) ->
                       ~ In "toString" ids).
Proof.
  eexists. split; [vm_compute; reflexivity|].
  split; [vm_compute; tauto|].
  apply (prototype_names_are_never_deleted Sample.toString Sample.parse
           "toString" Sample.listsPrototypeName).
  - vm_compute. tauto.
  - vm_compute. reflexivity.
Defined.

(** The listing of a request with a config entry fails. *)
Lemma reconciliation_failure_is_reported_as_400_witness :
  exists s,
    sample_run Sample.configOnly = Some s
    /\ reconciliation_fails s (EvListPage 0 (inl Sample.storeError))
         Sample.storeError
    /\ ((exists s' rest,
            step Sample.toString Sample.parse
              (EvListPage 0 (inl Sample.storeError)) s = Some s'
            /\ out s' = out s
                 ++ [Log Err
                       "Fatal bulk upload problem: deleted content removal"
                       (PProblem None (message Sample.storeError) 400);
                     Next (Some (set_statusCode 400 Sample.storeError))]
                 ++ rest)
        /\ error_status (Next (Some (set_statusCode 400 Sample.storeError)))
           = Some 400
        /\ status_class 400 = ClientError
        /\ (forall e s0, exists pre post,
              out (on_error e s0) = pre ++ ResSend 400 (Some e) :: post)).
Proof.
  eexists. split; [vm_compute; reflexivity|].
  assert (forall s err,
            recons s !! 0 = Some (Listing []) ->
            reconciliation_fails s (EvListPage 0 (inl err)) err) as Hfails.
  { intros s err H. exists 0. left. by exists []. }
  split.
  - apply Hfails. vm_compute. reflexivity.
  - apply (reconciliation_failure_is_reported_as_400
             Sample.toString Sample.parse).
    apply Hfails. vm_compute. reflexivity.
Defined.


(** A [metadata/keep.json] that is the empty object: the missing key is
    logged and nothing is counted. *)
Lemma entry_errors_are_not_fatal_witness :
  exists s l s',
    sample_run [ EvEntry Sample.keepEntry;
                 EvData 0 (Sample.bytes Sample.nokeep_text) ] = Some s
    /\ streams s !! 0 = Some l
    /\ step Sample.toString Sample.parse (EvStreamEnd 0) s = Some s'
    /\ failureCount s' = failureCount s
    /\ only_logged 0 l "parsing keep.json" missing_keep s s'.
Proof.
  eexists _, _, _.
  split; [vm_compute; reflexivity|].
  split; [vm_compute; reflexivity|].
  split; [vm_compute; reflexivity|].
  match goal with
  | |- failureCount ?s' = failureCount ?s /\ only_logged 0 ?l _ _ _ _ =>
      assert (streams s !! 0 = Some l) as Hl by (vm_compute; reflexivity);
      assert (step Sample.toString Sample.parse (EvStreamEnd 0) s = Some s')
        as Hstep by (vm_compute; reflexivity);
      pose proof (entry_errors_are_not_fatal Sample.toString Sample.parse
                    0 l s s' Hl Hstep) as H
  end.
  hnf in H. apply (H None); reflexivity.
Defined.

(* ===================================================================== *)
(** * Further properties of the handler *)
(* ===================================================================== *)

(** ** The callbacks in closed form *)

Lemma q_process_eq (s : State) :
  let k := min (length (tasks (uploadQueue s)))
               (concurrency - workers (uploadQueue s)) in
  q_process s =
    {| contentIDBase := contentIDBase s; envelopeCount := envelopeCount s;
       failureCount := failureCount s; deletionCount := deletionCount s;
       toKeep := toKeep s;
       uploadQueue :=
         {| tasks := drop k (tasks (uploadQueue s));
            workers := workers (uploadQueue s) + k;
            workersList :=
              workersList (uploadQueue s) ++ take k (tasks (uploadQueue s));
            drain := drain (uploadQueue s) |};
       streams := streams s; recons := recons s;
       out := out s ++ start_actions (take k (tasks (uploadQueue s))) |}.
Proof. unfold q_process. apply q_process_from_eq. Qed.

Lemma keep_all_eq (l : list json) (s : State) :
  keep_all l s
  = set_toKeep
      (fold_left (fun m c => obj_set m (toPropertyKey c) true) l (toKeep s)) s.
Proof.
  unfold keep_all. revert s. induction l as [|x l IH]; intros s.
  - by destruct s.
  - simpl. by rewrite IH.
Qed.

(** What the [entry] callback leaves behind, by the class of the path. *)
Lemma settle_on_entry (entry : Entry) (s : State) :
  settle (on_entry entry s) =
    if String.eqb (entry_type entry) "File" then
      let s0 := emit (Log Debug "Received entry for path"
                        (PPath (entry_path entry))) s in
      match route (entry_path entry) with
      | ToConfig => jsonFromStream entry HConfig s0
      | ToKeep => jsonFromStream entry HKeep s0
      | ToEnvelope (Some id) =>
          jsonFromStream entry (HEnvelope id)
            (set_toKeep (obj_set (toKeep s0) id true) s0)
      | ToEnvelope None => emit (Uncaught URIError) s0
      | ToNobody warning =>
          emit (Log Warn warning (PPath (entry_path entry))) s0
      end
    else s.
Proof.
  unfold on_entry, route, handleEnvelopeEntry, handleConfigEntry,
    handleKeepEntry.
  destruct (String.eqb (entry_type entry) "File"); [|done].
  cbn [negb]. cbv zeta. by repeat case_match.
Qed.

(** Brings a state into closed form: the functions of the handler are
    unfolded and every branch becomes a goal. *)
Ltac explode :=
  unfold on_end, on_error, storeEnvelope_cb, q_next, q_drain, q_running,
    finishRequest, removeDeletedContent, listContent_cb, removeEnvelopes_cb,
    finishRequest_cb, reportCompletion, jsonFromStream_end, callback_of,
    handleConfigEntry_cb, handleKeepEntry_cb, handleEnvelopeEntry_cb,
    q_push, settle, reportError, jsonFromStream, envelopeWorker in *;
  repeat first
    [ rewrite q_process_eq
    | rewrite keep_all_eq
    | progress cbv zeta
    | progress cbn [contentIDBase envelopeCount failureCount deletionCount
                    toKeep uploadQueue streams recons out tasks workers
                    workersList drain set_contentIDBase set_envelopeCount
                    set_failureCount set_deletionCount set_toKeep
                    set_uploadQueue set_streams set_recons emit] in *
    | case_match
    | progress simplify_eq ].

(** The cases of [step]: the event is split and the lookups are resolved. *)
Ltac step_cases H :=
  match type of H with
  | step _ _ ?ev ?s = Some ?s' =>
      destruct ev; cbn [step] in H;
      repeat match type of H with
             | context [?l !! ?i] =>
                 let o := fresh "lookup" in
                 destruct (l !! i) as [o|] eqn:?; cbn [mbind option_bind] in H
             end;
      try discriminate H
  end.

Lemma q_process_no_tasks (s : State) :
  tasks (uploadQueue s) = [] -> q_process s = s.
Proof.
  intros H. rewrite q_process_eq. cbv zeta. rewrite H. simpl.
  rewrite Nat.add_0_r, !app_nil_r. destruct s as [? ? ? ? ? [? ? ? ?] ? ? ?].
  simpl in *. by subst.
Qed.

(** [finishRequest]: the listing is asked for when there is a base,
    otherwise the request is completed at once. *)
Lemma finishRequest_cases (s : State) :
  (exists base,
      contentIDBase s = Some base /\ truthy base = true
      /\ finishRequest s
         = emit (ListContent base) (set_recons (recons s ++ [Listing []]) s))
  \/ ((contentIDBase s = None
       \/ exists base, contentIDBase s = Some base /\ truthy base = false)
      /\ finishRequest s
         = emit (Next None)
             (emit (ResSend 204 None)
                (emit (Log Info "Bulk content upload completed successfully."
                         (PCompleted (envelopeCount s) (failureCount s)
                            (deletionCount s)))
                   (emit (Log Debug "Skipping content deletion." PNone) s)))).
Proof.
  unfold finishRequest, removeDeletedContent, finishRequest_cb,
    reportCompletion.
  destruct (contentIDBase s) as [base|] eqn:Hbase.
  - destruct (truthy base) eqn:Ht; [left|right]; eauto 10.
  - right. eauto.
Qed.

Section Footprints.

Variable Buffer_toString : Buffer -> string.
Variable JSON_parse : string -> Error + json.

(** The [end] callback of an entry's stream does one of five things, and
    no exception leaves it: it logs a problem of a config or keep entry;
    it logs a problem of an envelope and counts the failure; it sets
    [contentIDBase] to a truthy value; it keeps the IDs of a keep list; or
    it pushes the envelope on the queue. *)
Lemma stream_end_cases (i : nat) (l : Listener) (s s' : State) :
  streams s !! i = Some l ->
  step Buffer_toString JSON_parse (EvStreamEnd i) s = Some s' ->
  let s0 := set_streams (delete i (streams s)) s in
  let path := entry_path (l_entry l) in
  (exists description msg,
      is_envelope_listener l = false
      /\ s' = emit (Log Warn description
                      (PProblem (Some path) msg 400)) s0)
  \/ (exists description msg,
         is_envelope_listener l = true
         /\ s' = emit (Log Warn description
                         (PProblem (Some path) msg 400))
                    (set_failureCount (S (failureCount s)) s0))
  \/ (exists config v,
         l_handler l = HConfig
         /\ materialize Buffer_toString JSON_parse (l_chunks l)
              (entry_size (l_entry l)) = inr config
         /\ get_member config "contentIDBase" = inr (Some v)
         /\ truthy v = true
         /\ s' = set_contentIDBase (Some v) s0)
  \/ (exists keep ids,
         l_handler l = HKeep
         /\ materialize Buffer_toString JSON_parse (l_chunks l)
              (entry_size (l_entry l)) = inr keep
         /\ get_member keep "keep" = inr (Some (JArr ids))
         /\ s' = keep_all ids s0)
  \/ (exists id envelope,
         l_handler l = HEnvelope id
         /\ materialize Buffer_toString JSON_parse (l_chunks l)
              (entry_size (l_entry l)) = inr envelope
         /\ s' = q_push {| contentID := id; envelope := envelope |} s0).
Proof.
  intros Hl Hstep. cbn [step] in Hstep. rewrite Hl in Hstep.
  cbn [mbind option_bind] in Hstep. injection Hstep as <-.
  unfold is_envelope_listener, jsonFromStream_end.
  destruct (l_handler l) as [| |id] eqn:Hh;
    destruct (materialize _ _ _ _) as [err|payload] eqn:Hm;
    cbn [callback_of handleConfigEntry_cb handleKeepEntry_cb
         handleEnvelopeEntry_cb].
  - left. unfold reportError. simpl. eauto.
  - destruct (get_member payload "contentIDBase") as [e|[v|]] eqn:Hg.
    + left. unfold reportError. simpl. eauto.
    + simpl. destruct (truthy v) eqn:Hv; simpl.
      * right. right. left. by exists payload, v.
      * left. unfold reportError. simpl. eauto.
    + left. unfold reportError. simpl. eauto.
  - left. unfold reportError. simpl. eauto.
  - destruct (get_member payload "keep") as [e|[kv|]] eqn:Hg.
    + left. unfold reportError. simpl. eauto.
    + destruct (truthy kv) eqn:Hv; simpl.
      * destruct kv; simpl; try (left; unfold reportError; simpl; by eauto).
        right. right. right. left. by eexists payload, _.
      * left. unfold reportError. simpl. eauto.
    + left. unfold reportError. simpl. eauto.
  - right. left. unfold reportError. simpl. eauto.
  - right. right. right. right. simpl. by exists id, payload.
Qed.

(** The [error] callback of an entry's stream logs the error, and counts
    it for an envelope. *)
Lemma stream_error_cases (i : nat) (l : Listener) (err : Error)
    (s s' : State) :
  streams s !! i = Some l ->
  step Buffer_toString JSON_parse (EvStreamError i err) s = Some s' ->
  let s0 := set_streams (delete i (streams s)) s in
  let path := entry_path (l_entry l) in
  exists description,
    s' = emit (Log Warn description (PProblem (Some path) (message err) 400))
           (if is_envelope_listener l
            then set_failureCount (S (failureCount s)) s0 else s0).
Proof.
  intros Hl Hstep. cbn [step] in Hstep. rewrite Hl in Hstep.
  cbn [mbind option_bind] in Hstep. injection Hstep as <-.
  unfold is_envelope_listener.
  destruct (l_handler l) as [| |id]; simpl; unfold reportError; simpl;
    by eauto.
Qed.

(** The callback of [storeEnvelope]: after the release either the queue
    goes on, or nothing waits and nothing runs any more, [drain] is
    [finishRequest], and that is called. *)
Lemma stored_cases (i : nat) (task : Task) (err : option Error)
    (s s' : State) :
  workersList (uploadQueue s) !! i = Some task ->
  step Buffer_toString JSON_parse (EvStored i err) s = Some s' ->
  s' = q_process (released i task err s)
  \/ (tasks (uploadQueue s) = []
      /\ workers (uploadQueue s) - 1 = 0
      /\ drain (uploadQueue s) = FinishRequest
      /\ s' = finishRequest (released i task err s)).
Proof.
  intros Hl Hstep. cbn [step] in Hstep. rewrite Hl in Hstep.
  cbn [mbind option_bind] in Hstep. injection Hstep as <-.
  assert (storeEnvelope_cb i task err s
          = q_process
              (if (length (tasks (uploadQueue s))
                   + (workers (uploadQueue s) - 1) =? 0)%nat
               then q_drain (released i task err s)
               else released i task err s)) as ->.
  { unfold storeEnvelope_cb, q_next, released, reportError.
    destruct err; reflexivity. }
  destruct (length (tasks (uploadQueue s)) + (workers (uploadQueue s) - 1)
            =? 0)%nat eqn:Hidle; [|by left].
  apply Nat.eqb_eq in Hidle.
  assert (tasks (uploadQueue s) = []) as Htasks
    by (destruct (tasks (uploadQueue s)); [done|simpl in Hidle; lia]).
  unfold q_drain.
  assert (drain (uploadQueue (released i task err s))
          = drain (uploadQueue s)) as -> by (by destruct err).
  destruct (drain (uploadQueue s)) eqn:Hdrain; [by left|].
  right. split; [done|]. split; [lia|]. split; [done|].
  apply q_process_no_tasks.
  destruct (finishRequest_cases (released i task err s))
    as [(base & _ & _ & ->)|(_ & ->)]; by destruct err.
Qed.

End Footprints.

(** ** Accounting of the envelopes *)



Section Accounting.

Variable Buffer_toString : Buffer -> string.
Variable JSON_parse : string -> Error + json.



End Accounting.

(** ** What cannot happen early or without a config entry *)

Lemma filter_start_actions (f : Action -> bool) (ts : list Task) :
  (forall m p, f (Log Debug m p) = false) ->
  (forall t, f (StoreEnvelope t) = false) ->
  List.filter f (start_actions ts) = [].
Proof.
  intros Hlog Hstore. induction ts as [|t ts IH]; simpl; [done|].
  by rewrite Hlog, Hstore.
Qed.

Section Early.

Variable Buffer_toString : Buffer -> string.
Variable JSON_parse : string -> Error + json.

Lemma step_unfinished ev s s' :
  unfinished s -> is_EvParseEnd ev = false ->
  step Buffer_toString JSON_parse ev s = Some s' ->
  unfinished s'.
Proof.
  intros (Hd & Hr & Hc & Hf) Hend Hstep. pose proof Hstep as Hstep'.
  unfold unfinished. step_cases Hstep; try done.
  all: try (injection Hstep as <-).
  - rewrite settle_on_entry.
    destruct (String.eqb (entry_type entry) "File"); [|done].
    destruct (route (entry_path entry)) as [| |[id|]|warning];
      explode; rewrite ?List.filter_app, ?Hf; done.
  - by explode.
  - destruct (stream_end_cases _ _ _ _ _ _ Heqo Hstep')
      as [(d & m & Hl & ->)|[(d & m & Hl & ->)|[(c & v & Hl & _ & _ & _ & ->)|
          [(k & ids & Hl & _ & _ & ->)|(id & e & Hl & _ & ->)]]]];
      try rewrite keep_all_eq; explode; rewrite ?List.filter_app, ?Hf; done.
  - destruct (stream_error_cases _ _ _ _ _ _ _ Heqo Hstep') as (d & ->).
    destruct (is_envelope_listener lookup); explode;
      rewrite ?List.filter_app, ?Hf; done.
  - explode. rewrite List.filter_app, Hf, filter_start_actions; done.
  - destruct (stored_cases _ _ _ _ _ _ _ Heqo Hstep')
      as [->|(_ & _ & Hdrain & _)]; [|congruence].
    rewrite q_process_eq. cbv zeta. unfold released.
    destruct err; cbn; rewrite !List.filter_app, Hf, filter_start_actions;
      done.
  - explode. rewrite !List.filter_app, Hf. done.
  - rewrite Hr in Heqo. by rewrite lookup_nil in Heqo.
  - rewrite Hr in Heqo. by rewrite lookup_nil in Heqo.
Qed.

(** X2. Nothing is finished before the tarball ends.  As long as the
    parse stream has not signalled [end], the handler has not asked the
    store for a listing or a removal, has not answered with 204, and
    [deletionCount] is 0, whatever the entries and the storage callbacks
    were. *)
Theorem nothing_is_finished_before_end (evs : list Event) (s : State) :
  run Buffer_toString JSON_parse evs init = Some s ->
  List.filter is_EvParseEnd evs = [] ->
  List.filter is_finishing (out s) = []
  /\ deletionCount s = 0
  /\ recons s = [].
Proof.
  assert (forall evs s0 s,
            unfinished s0 ->
            run Buffer_toString JSON_parse evs s0 = Some s ->
            List.filter is_EvParseEnd evs = [] -> unfinished s) as Hgen.
  { clear evs s. induction evs as [|ev evs IH]; intros s0 s Hu Hrun Hno.
    - by injection Hrun as <-.
    - simpl in Hrun, Hno.
      destruct (step _ _ ev s0) as [s1|] eqn:Hstep; [|done]. simpl in Hrun.
      destruct (is_EvParseEnd ev) eqn:Hev; [done|].
      eapply IH; [|exact Hrun|exact Hno]. by eapply step_unfinished. }
  intros Hrun Hno.
  destruct (Hgen evs init s) as (_ & Hr & Hc & Hf); done.
Qed.

Lemma step_baseless ev s s' :
  baseless s -> is_config_entry ev = false ->
  step Buffer_toString JSON_parse ev s = Some s' ->
  baseless s'.
Proof.
  intros (Hb & Hs & Hr & Hc & Hf) Hev Hstep. pose proof Hstep as Hstep'.
  unfold baseless. step_cases Hstep.
  all: try (injection Hstep as <-).
  - rewrite settle_on_entry. cbn [is_config_entry] in Hev.
    destruct (String.eqb (entry_type entry) "File"); [|done].
    destruct (route (entry_path entry)) as [| |[id|]|warning]; try done;
      explode; rewrite ?List.filter_app, ?Hf; repeat split; try done;
      apply Forall_app; split; try done; by repeat constructor.
  - explode. repeat split; try done. apply Forall_insert; [done|].
    unfold is_config_listener. simpl.
    rewrite Forall_forall in Hs.
    apply (Hs lookup). apply list_elem_of_lookup. by exists i.
  - assert (is_config_listener lookup = false) as Hnc.
    { rewrite Forall_forall in Hs. apply Hs.
      apply list_elem_of_lookup. by exists i. }
    pose proof (Forall_delete _ _ i Hs) as Hdel.
    destruct (stream_end_cases _ _ _ _ _ _ Heqo Hstep')
      as [(d & m & Hl & ->)|[(d & m & Hl & ->)|[(c & v & Hl & _ & _ & _ & ->)|
          [(k & ids & Hl & _ & _ & ->)|(id & e & Hl & _ & ->)]]]];
      try rewrite keep_all_eq;
      try (unfold is_config_listener in Hnc; rewrite Hl in Hnc; done);
      explode; rewrite ?List.filter_app, ?Hf; done.
  - pose proof (Forall_delete _ _ i Hs) as Hdel.
    destruct (stream_error_cases _ _ _ _ _ _ _ Heqo Hstep') as (d & ->).
    destruct (is_envelope_listener lookup); explode;
      rewrite ?List.filter_app, ?Hf; done.
  - explode. rewrite List.filter_app, Hf, filter_start_actions; done.
  - destruct (stored_cases _ _ _ _ _ _ _ Heqo Hstep')
      as [->|(_ & _ & _ & ->)].
    + rewrite q_process_eq. cbv zeta. unfold released.
      destruct err; cbn; rewrite !List.filter_app, Hf, filter_start_actions;
        done.
    + destruct (finishRequest_cases (released i lookup err s))
        as [(base & Hbase & _ & _)|(_ & ->)].
      * unfold released in Hbase. destruct err; cbn in Hbase; congruence.
      * unfold released. destruct err; cbn; rewrite !List.filter_app, Hf;
          done.
  - explode. rewrite !List.filter_app, Hf. done.
  - unfold on_end. case_match; [by explode|].
    destruct (finishRequest_cases s) as [(base & Hbase & _ & _)|(_ & ->)];
      [congruence|].
    cbn. rewrite !List.filter_app, Hf. done.
  - rewrite Hr in Heqo. by rewrite lookup_nil in Heqo.
  - rewrite Hr in Heqo. by rewrite lookup_nil in Heqo.
Qed.

(** X3. Without a config entry nothing is removed.  When no entry of the
    tarball was dispatched to the config handler, [contentIDBase] stays
    [null], the store is never asked for a listing or a removal, and
    [deletionCount] stays 0, whatever else the tarball holds. *)
Theorem no_config_no_removal (evs : list Event) (s : State) :
  run Buffer_toString JSON_parse evs init = Some s ->
  List.filter is_config_entry evs = [] ->
  contentIDBase s = None
  /\ List.filter is_reconciling (out s) = []
  /\ deletionCount s = 0.
Proof.
  assert (forall evs s0 s,
            baseless s0 ->
            run Buffer_toString JSON_parse evs s0 = Some s ->
            List.filter is_config_entry evs = [] -> baseless s) as Hgen.
  { clear evs s. induction evs as [|ev evs IH]; intros s0 s Hu Hrun Hno.
    - by injection Hrun as <-.
    - simpl in Hrun, Hno.
      destruct (step _ _ ev s0) as [s1|] eqn:Hstep; [|done]. simpl in Hrun.
      destruct (is_config_entry ev) eqn:Hev; [done|].
      eapply IH; [|exact Hrun|exact Hno]. by eapply step_baseless. }
  intros Hrun Hno.
  destruct (Hgen evs init s) as (Hb & _ & _ & Hc & Hf); done.
Qed.

End Early.

(** ** Keep lists and exceptions *)

Lemma omap_cons_match {X Y} (f : X -> option Y) (x : X) (l : list X) :
  omap f (x :: l)
  = match f x with
    | Some y => y :: omap f l
    | None => omap f l
    end.
Proof. done. Qed.

Lemma omap_start_actions {X} (f : Action -> option X) (ts : list Task) :
  (forall m p, f (Log Debug m p) = None) ->
  omap f (start_actions ts) = omap (fun t => f (StoreEnvelope t)) ts.
Proof.
  intros Hlog. induction ts as [|t ts IH]; [done|].
  unfold start_actions in *. cbn [flat_map app].
  by rewrite !omap_cons_match, Hlog, IH.
Qed.

Lemma omap_none {X Y} (l : list X) : omap (fun _ : X => @None Y) l = [].
Proof. by induction l. Qed.



Section KeepAndThrow.

Variable Buffer_toString : Buffer -> string.
Variable JSON_parse : string -> Error + json.


(** X6. An exception in the callback of a config or keep entry is logged,
    not thrown.  The callback runs inside the [try] of [jsonFromStream],
    so when reading the key of the parsed value throws (the text is
    [null]), or when [keep] is given and has no [forEach], the exception
    is caught and handed to the same callback, which logs it as a
    warning; nothing else changes and no counter is touched. *)
Theorem exceptions_of_entry_callbacks_are_logged
    (i : nat) (l : Listener) (s s' : State) :
  streams s !! i = Some l ->
  step Buffer_toString JSON_parse (EvStreamEnd i) s = Some s' ->
  match l_handler l,
        materialize Buffer_toString JSON_parse (l_chunks l)
          (entry_size (l_entry l)) with
  | HConfig, inr config =>
      forall e,
        get_member config "contentIDBase" = inl e ->
        failureCount s' = failureCount s
        /\ only_logged i l "parsing config.json" e s s'
  | HKeep, inr keep =>
      (forall e,
          get_member keep "keep" = inl e ->
          failureCount s' = failureCount s
          /\ only_logged i l "parsing keep.json" e s s')
      /\ (forall kv e,
            get_member keep "keep" = inr (Some kv) ->
            truthy kv = true ->
            forEach_elements kv = inl e ->
            failureCount s' = failureCount s
            /\ only_logged i l "parsing keep.json" e s s')
  | _, _ => True
  end.
Proof.
  intros Hl Hstep. cbn [step] in Hstep. rewrite Hl in Hstep.
  cbn [mbind option_bind] in Hstep. injection Hstep as <-.
  unfold jsonFromStream_end.
  destruct (l_handler l) as [| |id]; try done;
    destruct (materialize _ _ _ _) as [err|payload]; try done;
    cbn [callback_of handleConfigEntry_cb handleKeepEntry_cb].
  - intros e He. rewrite He. by cbn.
  - split.
    + intros e He. rewrite He. by cbn.
    + intros kv e Hg Ht He. rewrite Hg, Ht. cbn [negb]. rewrite He. by cbn.
Qed.

Lemma step_uncaught ev s s' :
  step Buffer_toString JSON_parse ev s = Some s' ->
  uncaught_errors (out s')
  = uncaught_errors (out s)
    ++ (if is_undecodable_entry ev then [URIError] else []).
Proof.
  intros Hstep. pose proof Hstep as Hstep'. unfold uncaught_errors.
  step_cases Hstep.
  all: try (injection Hstep as <-).
  all: cbn [is_undecodable_entry].
  - rewrite settle_on_entry.
    destruct (String.eqb (entry_type entry) "File");
      [|by rewrite app_nil_r].
    destruct (route (entry_path entry)) as [| |[id|]|warning];
      explode; rewrite ?omap_app; cbn; by rewrite ?app_nil_r.
  - explode. by rewrite app_nil_r.
  - destruct (stream_end_cases _ _ _ _ _ _ Heqo Hstep')
      as [(d & m & Hl & ->)|[(d & m & Hl & ->)|[(c & v & Hl & _ & _ & _ & ->)|
          [(k & ids & Hl & _ & _ & ->)|(id & e & Hl & _ & ->)]]]];
      try rewrite keep_all_eq; explode; rewrite ?omap_app; cbn;
      by rewrite ?app_nil_r.
  - destruct (stream_error_cases _ _ _ _ _ _ _ Heqo Hstep') as (d & ->).
    destruct (is_envelope_listener lookup); explode; rewrite ?omap_app;
      cbn; by rewrite ?app_nil_r.
  - explode. rewrite omap_app, omap_start_actions by done.
    cbn. by rewrite ?omap_none, ?app_nil_r.
  - destruct (stored_cases _ _ _ _ _ _ _ Heqo Hstep')
      as [->|(_ & _ & _ & ->)].
    + rewrite q_process_eq. cbv zeta. unfold released.
      destruct err; cbn; rewrite !omap_app, omap_start_actions by done;
        cbn; by rewrite ?omap_none, ?app_nil_r.
    + destruct (finishRequest_cases (released i lookup err s))
        as [(base & _ & _ & ->)|(_ & ->)];
        unfold released; destruct err; cbn; rewrite !omap_app; cbn;
        by rewrite ?app_nil_r.
  - explode. rewrite !omap_app. cbn. by rewrite ?app_nil_r.
  - unfold on_end. case_match; [explode; by rewrite app_nil_r|].
    destruct (finishRequest_cases s) as [(base & _ & _ & ->)|(_ & ->)];
      cbn; rewrite !omap_app; cbn; by rewrite ?app_nil_r.
  - explode; rewrite ?omap_app; cbn; by rewrite ?app_nil_r.
  - explode; rewrite ?omap_app; cbn; by rewrite ?app_nil_r.
Qed.

(** X5. Only an undecodable file name throws.  The exceptions that leave
    the callbacks of a request are [URIError]s, exactly one for every
    envelope entry whose file name is not a percent-encoding; no other
    callback of the handler lets an exception out. *)
Theorem only_undecodable_names_throw (evs : list Event) (s : State) :
  run Buffer_toString JSON_parse evs init = Some s ->
  uncaught_errors (out s)
  = replicate (length (List.filter is_undecodable_entry evs)) URIError.
Proof.
  assert (forall evs s0 s,
            run Buffer_toString JSON_parse evs s0 = Some s ->
            uncaught_errors (out s)
            = uncaught_errors (out s0)
              ++ replicate (length (List.filter is_undecodable_entry evs))
                   URIError) as Hgen.
  { clear evs s. induction evs as [|ev evs IH]; intros s0 s Hrun.
    - injection Hrun as <-. simpl. by rewrite app_nil_r.
    - simpl in Hrun.
      destruct (step _ _ ev s0) as [s1|] eqn:Hstep; [|done]. simpl in Hrun.
      rewrite (IH _ _ Hrun), (step_uncaught _ _ _ Hstep). simpl.
      destruct (is_undecodable_entry ev); simpl;
        by rewrite <- ?app_assoc, ?app_nil_r. }
  intros Hrun. by rewrite (Hgen _ _ _ Hrun).
Qed.

End KeepAndThrow.

(** ** The listing and the removal *)

Lemma removed_ids_app (l1 l2 : list Action) :
  removed_ids (l1 ++ l2) = removed_ids l1 ++ removed_ids l2.
Proof. apply flat_map_app. Qed.

Lemma removed_ids_start_actions (ts : list Task) :
  removed_ids (start_actions ts) = [].
Proof. by induction ts. Qed.

Lemma listed_ids_app (l1 l2 : list Event) :
  listed_ids (l1 ++ l2) = listed_ids l1 ++ listed_ids l2.
Proof. apply flat_map_app. Qed.

Lemma In_delete {A} (x : A) (i : nat) (l : list A) :
  In x (delete i l) -> In x l.
Proof.
  revert i. induction l as [|y l IH]; intros [|i]; cbn; auto.
  intros [->|H]; eauto.
Qed.

Section Reconciliation.

Variable Buffer_toString : Buffer -> string.
Variable JSON_parse : string -> Error + json.

(** X7. The pages of a listing add up.  While [storage.listContent]
    delivers non-empty pages the handler only asks for the next one; at the
    empty page the IDs of all the pages, in the order of their delivery,
    go through the filter once, [removeEnvelopes] is called with what it
    lets through and [deletionCount] is the length of that list. *)
Theorem listing_pages_accumulate
    (i : nat) (existing : list string) (pages : list (list string))
    (s : State) :
  recons s !! i = Some (Listing existing) ->
  Forall (fun p => p <> []) pages ->
  exists s',
    run Buffer_toString JSON_parse
      (map (fun p => EvListPage i (inr p)) pages ++ [EvListPage i (inr [])])
      s = Some s'
    /\ out s' = out s ++ replicate (length pages) ListNext
                ++ [ Log Debug "Deleting removed envelopes."
                       (PDeletionCount
                          (length (toDelete_of (toKeep s)
                                     (existing ++ concat pages))));
                     RemoveEnvelopes
                       (toDelete_of (toKeep s) (existing ++ concat pages)) ]
    /\ deletionCount s'
       = length (toDelete_of (toKeep s) (existing ++ concat pages))
    /\ recons s' = <[i := Removing]> (recons s).
Proof.
  intros Hi Hpages. revert existing s Hi.
  induction Hpages as [|p pages Hp _ IH]; intros existing s Hi.
  - cbn [map app run step]. rewrite Hi. cbn [mbind option_bind].
    eexists. split; [reflexivity|].
    unfold listContent_cb. cbn [length Nat.ltb Nat.leb].
    cbn [deletionCount out emit set_recons set_deletionCount toKeep recons
         concat replicate app].
    rewrite app_nil_r. by rewrite <- app_assoc.
  - cbn [map app run step]. rewrite Hi. cbn [mbind option_bind].
    unfold listContent_cb at 1.
    destruct p as [|id p]; [done|]. cbn [length Nat.ltb Nat.leb].
    set (s1 := emit ListNext _).
    destruct (IH (existing ++ id :: p) s1) as (s' & Hrun & Hout & Hdel & Hrec).
    { subst s1. cbn [recons emit set_recons].
      apply list_lookup_insert_eq. by eapply lookup_lt_Some. }
    exists s'. split; [exact Hrun|].
    subst s1. cbn [out toKeep recons emit set_recons] in *.
    rewrite Hout, Hdel, Hrec. cbn [concat length replicate map].
    rewrite <- !app_assoc. cbn [app].
    split; [done|]. split; [done|].
    apply list_insert_insert_eq.
Qed.

Lemma step_recons_cases ev s s' :
  step Buffer_toString JSON_parse ev s = Some s' ->
  (exists i existing r,
      ev = EvListPage i r /\ recons s !! i = Some (Listing existing)
      /\ s' = listContent_cb i existing r s)
  \/ (removed_ids (out s') = removed_ids (out s)
      /\ (recons s' = recons s
          \/ recons s' = recons s ++ [Listing []]
          \/ exists i, recons s' = delete i (recons s))).
Proof.
  intros Hstep. pose proof Hstep as Hstep'.
  step_cases Hstep.
  all: try (injection Hstep as <-).
  - right. rewrite settle_on_entry.
    destruct (String.eqb (entry_type entry) "File"); [|by auto].
    destruct (route (entry_path entry)) as [| |[id|]|warning];
      explode; rewrite ?removed_ids_app; cbn; rewrite ?app_nil_r; auto.
  - right. explode. auto.
  - right.
    destruct (stream_end_cases _ _ _ _ _ _ Heqo Hstep')
      as [(d & m & Hl & ->)|[(d & m & Hl & ->)|[(c & v & Hl & _ & _ & _ & ->)|
          [(k & ids & Hl & _ & _ & ->)|(id & e & Hl & _ & ->)]]]];
      try rewrite keep_all_eq; explode; rewrite ?removed_ids_app; cbn;
      rewrite ?app_nil_r; auto.
  - right.
    destruct (stream_error_cases _ _ _ _ _ _ _ Heqo Hstep') as (d & ->).
    destruct (is_envelope_listener lookup); explode;
      rewrite ?removed_ids_app; cbn; rewrite ?app_nil_r; auto.
  - right. explode.
    rewrite removed_ids_app, removed_ids_start_actions, app_nil_r. auto.
  - right.
    destruct (stored_cases _ _ _ _ _ _ _ Heqo Hstep')
      as [->|(_ & _ & _ & ->)].
    + rewrite q_process_eq. cbv zeta. unfold released.
      destruct err; cbn;
        rewrite !removed_ids_app, removed_ids_start_actions; cbn;
        rewrite ?app_nil_r; auto.
    + destruct (finishRequest_cases (released i lookup err s))
        as [(base & _ & _ & ->)|(_ & ->)];
        unfold released; destruct err; cbn; rewrite !removed_ids_app; cbn;
        rewrite ?app_nil_r; auto.
  - right. explode. rewrite !removed_ids_app. cbn. rewrite ?app_nil_r. auto.
  - right. unfold on_end. case_match; [explode; by auto|].
    destruct (finishRequest_cases s) as [(base & _ & _ & ->)|(_ & ->)];
      cbn; rewrite !removed_ids_app; cbn; rewrite ?app_nil_r; auto.
  - left. destruct lookup as [existing|]; [|done].
    injection Hstep as <-. by exists i, existing, r.
  - right. destruct lookup as [existing|]; [done|].
    injection Hstep as <-.
    destruct err; explode; rewrite !removed_ids_app; cbn;
      rewrite ?app_nil_r; eauto.
Qed.

Lemma step_listed_within L ev s s' :
  listed_within L s ->
  step Buffer_toString JSON_parse ev s = Some s' ->
  listed_within (L ++ listed_ids [ev]) s'.
Proof.
  intros [Hrec Hout] Hstep.
  destruct (step_recons_cases _ _ _ Hstep)
    as [(i & existing & r & -> & Hi & ->)|[Ho Hr]].
  - assert (incl existing L) as Hex.
    { apply Hrec. apply list_elem_of_In. by eapply list_elem_of_lookup_2. }
    unfold listContent_cb. destruct r as [err|ids].
    + cbn [listed_ids flat_map app]. rewrite app_nil_r. split.
      * intros ex Hin. cbn in Hin. apply Hrec. by eapply In_delete.
      * cbn. rewrite !removed_ids_app. cbn. by rewrite !app_nil_r.
    + cbn [listed_ids flat_map]. rewrite app_nil_r.
      destruct ids as [|id ids]; cbn [length Nat.ltb Nat.leb].
      * rewrite app_nil_r. split.
        -- intros ex Hin. cbn in Hin.
           apply list_elem_of_In, list_elem_of_lookup in Hin as [j Hj].
           destruct (decide (i = j)) as [->|Hne].
           ++ rewrite list_lookup_insert_eq in Hj by (by eapply lookup_lt_Some).
              done.
           ++ rewrite list_lookup_insert_ne in Hj by done.
              apply Hrec, list_elem_of_In. by eapply list_elem_of_lookup_2.
        -- cbn. rewrite !removed_ids_app. cbn. rewrite !app_nil_r.
           apply incl_app; [done|].
           intros x Hx. apply Hex.
           unfold toDelete_of in Hx. by apply filter_In in Hx as [Hx _].
      * split.
        -- intros ex Hin. cbn in Hin.
           apply list_elem_of_In, list_elem_of_lookup in Hin as [j Hj].
           destruct (decide (i = j)) as [->|Hne].
           ++ rewrite list_lookup_insert_eq in Hj by (by eapply lookup_lt_Some).
              injection Hj as <-.
              apply incl_app; [by apply incl_appl|apply incl_appr, incl_refl].
           ++ rewrite list_lookup_insert_ne in Hj by done.
              apply incl_appl, Hrec, list_elem_of_In.
              by eapply list_elem_of_lookup_2.
        -- cbn. rewrite !removed_ids_app. cbn. rewrite !app_nil_r.
           by apply incl_appl.
  - assert (listed_within L s') as [Hrec' Hout'].
    { split; [|by rewrite Ho].
      intros ex Hin. destruct Hr as [Hr|[Hr|[j Hr]]]; rewrite Hr in Hin.
      - by apply Hrec.
      - apply in_app_or in Hin as [Hin|[Hin|[]]]; [by apply Hrec|].
        injection Hin as <-. intros x [].
      - apply Hrec. by eapply In_delete. }
    split; [intros ex Hin; apply incl_appl; by apply Hrec'|by apply incl_appl].
Qed.

(** X12. Only listed IDs are removed.  Every ID that the handler hands to
    [removeEnvelopes] during a request was delivered before by
    [storage.listContent] in one of its pages. *)
Theorem only_listed_ids_are_removed
    (evs : list Event) (s : State) (id : string) :
  run Buffer_toString JSON_parse evs init = Some s ->
  In id (removed_ids (out s)) -> In id (listed_ids evs).
Proof.
  assert (forall evs L s0 s,
            listed_within L s0 ->
            run Buffer_toString JSON_parse evs s0 = Some s ->
            listed_within (L ++ listed_ids evs) s) as Hgen.
  { clear. induction evs as [|ev evs IH]; intros L s0 s Hin Hrun.
    - injection Hrun as <-. cbn. by rewrite app_nil_r.
    - cbn [run] in Hrun.
      destruct (step _ _ ev s0) as [s1|] eqn:Hstep; [|done].
      cbn [mbind option_bind] in Hrun.
      change (ev :: evs) with ([ev] ++ evs).
      rewrite listed_ids_app, app_assoc.
      eapply IH; [|exact Hrun]. by eapply step_listed_within. }
  intros Hrun Hin.
  destruct (Hgen evs [] init s) as [_ Hout]; [|done|by apply Hout].
  split; [intros ex []|intros x []].
Qed.

End Reconciliation.

(** ** The order of the uploads *)

Lemma stored_tasks_app (l1 l2 : list Action) :
  stored_tasks (l1 ++ l2) = stored_tasks l1 ++ stored_tasks l2.
Proof. apply omap_app. Qed.

Lemma stored_tasks_start_actions (ts : list Task) :
  stored_tasks (start_actions ts) = ts.
Proof.
  unfold stored_tasks. rewrite omap_start_actions by done.
  induction ts as [|t ts IH]; [done|].
  rewrite omap_cons_match. by rewrite IH.
Qed.

Lemma pushed_tasks_q_process (s : State) :
  pushed_tasks (q_process s) = pushed_tasks s.
Proof.
  rewrite q_process_eq. cbv zeta. unfold pushed_tasks.
  cbn [out uploadQueue tasks].
  rewrite stored_tasks_app, stored_tasks_start_actions, <- app_assoc.
  by rewrite take_drop.
Qed.

Section Order.

Variable Buffer_toString : Buffer -> string.
Variable JSON_parse : string -> Error + json.

Lemma step_pushed ev s s' :
  step Buffer_toString JSON_parse ev s = Some s' ->
  pushed_tasks s'
  = pushed_tasks s ++ pushed_by Buffer_toString JSON_parse ev s.
Proof.
  intros Hstep. pose proof Hstep as Hstep'.
  step_cases Hstep.
  all: try (injection Hstep as <-).
  all: cbn [pushed_by].
  - rewrite app_nil_r, settle_on_entry.
    destruct (String.eqb (entry_type entry) "File"); [|done].
    destruct (route (entry_path entry)) as [| |[id|]|warning];
      explode; unfold pushed_tasks; cbn; rewrite ?stored_tasks_app; cbn;
      by rewrite ?app_nil_r.
  - by rewrite app_nil_r.
  - rewrite Heqo. clear Hstep'. unfold jsonFromStream_end.
    destruct (materialize _ _ _ _) as [err|payload] eqn:Hm;
      destruct (l_handler lookup) as [| |id] eqn:Hh;
      cbn [callback_of handleConfigEntry_cb handleKeepEntry_cb
           handleEnvelopeEntry_cb];
      rewrite ?app_nil_r; explode;
      unfold pushed_tasks; cbn; rewrite ?stored_tasks_app; cbn;
      by rewrite ?app_nil_r, ?app_assoc.
  - rewrite app_nil_r.
    destruct (stream_error_cases _ _ _ _ _ _ _ Heqo Hstep') as (d & ->).
    destruct (is_envelope_listener lookup); unfold pushed_tasks; cbn;
      rewrite stored_tasks_app; cbn; by rewrite ?app_nil_r.
  - by rewrite app_nil_r, pushed_tasks_q_process.
  - rewrite app_nil_r.
    destruct (stored_cases _ _ _ _ _ _ _ Heqo Hstep')
      as [->|(Ht & _ & _ & ->)].
    + rewrite pushed_tasks_q_process. unfold released, pushed_tasks.
      destruct err; cbn; rewrite ?stored_tasks_app; cbn;
        by rewrite ?app_nil_r.
    + destruct (finishRequest_cases (released i lookup err s))
        as [(base & _ & _ & ->)|(_ & ->)];
        unfold released, pushed_tasks; destruct err; cbn;
        rewrite !stored_tasks_app; cbn; by rewrite ?app_nil_r.
  - rewrite app_nil_r. explode. unfold pushed_tasks. cbn.
    rewrite !stored_tasks_app. cbn. by rewrite ?app_nil_r.
  - rewrite app_nil_r. unfold on_end. case_match; [by explode|].
    destruct (finishRequest_cases s) as [(base & _ & _ & ->)|(_ & ->)];
      unfold pushed_tasks; cbn; rewrite !stored_tasks_app; cbn;
      by rewrite ?app_nil_r.
  - rewrite app_nil_r. explode; unfold pushed_tasks; cbn;
      rewrite ?stored_tasks_app; cbn; by rewrite ?app_nil_r.
  - rewrite app_nil_r. explode; unfold pushed_tasks; cbn;
      rewrite ?stored_tasks_app; cbn; by rewrite ?app_nil_r.
Qed.

(** X8. Envelopes are stored in the order in which they were read.  The
    tasks handed to [storeEnvelope] so far, followed by those that wait in
    the queue, are exactly the envelopes whose text parsed, in the order
    in which their streams ended: no task is dropped, repeated or
    overtaken. *)
Theorem uploads_follow_the_order_of_reading (evs : list Event) (s : State) :
  run Buffer_toString JSON_parse evs init = Some s ->
  stored_tasks (out s) ++ tasks (uploadQueue s)
  = pushes Buffer_toString JSON_parse evs init.
Proof.
  assert (forall evs s0 s,
            run Buffer_toString JSON_parse evs s0 = Some s ->
            pushed_tasks s
            = pushed_tasks s0 ++ pushes Buffer_toString JSON_parse evs s0)
    as Hgen.
  { clear. induction evs as [|ev evs IH]; intros s0 s Hrun.
    - injection Hrun as <-. cbn. by rewrite app_nil_r.
    - cbn [run] in Hrun. cbn [pushes].
      destruct (step _ _ ev s0) as [s1|] eqn:Hstep; [|done].
      cbn [mbind option_bind] in Hrun.
      by rewrite (IH _ _ Hrun), (step_pushed _ _ _ Hstep), app_assoc. }
  intros Hrun. exact (Hgen _ _ _ Hrun).
Qed.

Lemma run_app (evs1 evs2 : list Event) (s : State) :
  run Buffer_toString JSON_parse (evs1 ++ evs2) s
  = run Buffer_toString JSON_parse evs1 s
      ≫= run Buffer_toString JSON_parse evs2.
Proof.
  revert s. induction evs1 as [|ev evs1 IH]; intros s; [done|].
  cbn [app run]. destruct (step _ _ ev s) as [s1|]; [|done].
  cbn [mbind option_bind]. apply IH.
Qed.

Lemma run_data (i : nat) (l : Listener) (cs : list Buffer) (s : State) :
  streams s !! i = Some l ->
  run Buffer_toString JSON_parse (map (EvData i) cs) s
  = Some (set_streams (<[i := with_chunks l cs]> (streams s)) s).
Proof.
  revert l s. induction cs as [|c cs IH]; intros l s Hi.
  - cbn. f_equal. unfold with_chunks. rewrite app_nil_r.
    destruct s, l. cbn in *. unfold set_streams. cbn.
    by rewrite list_insert_id.
  - cbn [map run step]. rewrite Hi. cbn [mbind option_bind].
    rewrite (IH (with_chunks l [c])).
    + f_equal. unfold set_streams, with_chunks. cbn.
      by rewrite list_insert_insert_eq, <- app_assoc.
    + cbn. apply list_lookup_insert_eq. by eapply lookup_lt_Some.
Qed.

Lemma delete_insert_same {A} (i : nat) (x : A) (l : list A) :
  delete i (<[i := x]> l) = delete i l.
Proof. revert i. induction l as [|y l IH]; intros [|i]; cbn; by f_equal. Qed.

(** X10. The chunking of an entry does not matter.  The [data] callbacks
    collect the chunks of a stream in the order of their arrival, and what
    the [end] callback decodes depends on their concatenation only: a
    stream that delivers its bytes in any number of chunks, at least one,
    leaves the handler in the state in which one chunk with all the bytes
    leaves it. *)
Theorem chunking_does_not_matter
    (i : nat) (chunks : list Buffer) (s : State) :
  chunks <> [] ->
  run Buffer_toString JSON_parse (map (EvData i) chunks ++ [EvStreamEnd i]) s
  = run Buffer_toString JSON_parse [EvData i (concat chunks); EvStreamEnd i]
      s.
Proof.
  intros Hne. destruct (streams s !! i) as [l|] eqn:Hi.
  - assert (forall cs s1,
              cs <> [] ->
              run Buffer_toString JSON_parse (map (EvData i) cs) s = Some s1
              ->
              run Buffer_toString JSON_parse [EvStreamEnd i] s1
              = Some (settle
                        (jsonFromStream_end Buffer_toString JSON_parse
                           (l_chunks l ++ [concat cs])
                           (entry_size (l_entry l))
                           (callback_of (l_handler l) (l_entry l))
                           (set_streams (delete i (streams s)) s))))
      as Hend.
    { intros cs s1 Hcs Hrun. rewrite (run_data _ _ _ _ Hi) in Hrun.
      injection Hrun as <-. cbn [run step streams set_streams].
      rewrite list_lookup_insert_eq by (by eapply lookup_lt_Some).
      cbn [mbind option_bind with_chunks l_chunks l_entry l_handler].
      rewrite delete_insert_same. do 2 f_equal.
      unfold jsonFromStream_end, materialize.
      replace (Buffer_concat (l_chunks l ++ cs) (entry_size (l_entry l)))
        with (Buffer_concat (l_chunks l ++ [concat cs])
                (entry_size (l_entry l))); [done|].
      unfold Buffer_concat.
      destruct (l_chunks l ++ [concat cs]) as [|b bs] eqn:H1;
        [by destruct (l_chunks l)|].
      destruct (l_chunks l ++ cs) as [|b' bs'] eqn:H2;
        [by destruct (l_chunks l), cs|].
      rewrite <- H1, <- H2, !concat_app. cbn [concat].
      by rewrite app_nil_r. }
    rewrite run_app, (run_data _ _ _ _ Hi). cbn [mbind option_bind].
    rewrite (Hend chunks) by (by try apply run_data).
    pose proof (run_data i l [concat chunks] s Hi) as H1.
    pose proof (run_app [EvData i (concat chunks)] [EvStreamEnd i] s) as H2.
    cbn [app map] in H1, H2. rewrite H2, H1. cbn [mbind option_bind].
    rewrite (Hend [concat chunks]); [|done|done].
    cbn [concat]. by rewrite app_nil_r.
  - destruct chunks as [|c chunks]; [done|].
    cbn [map app run step]. by rewrite Hi.
Qed.

End Order.

(** ** Content IDs of plain file names *)

Lemma length_of_chars (l : chars) : String.length (of_chars l) = length l.
Proof. induction l as [|c l IH]; [done|]. cbn. f_equal. exact IH. Qed.

Lemma tokens_plain (l : chars) :
  Forall (fun c => is_percent c = false) l ->
  URI.tokens l = Some (map URI.Lit l).
Proof.
  induction 1 as [|c l Hc _ IH]; [done|]. cbn [URI.tokens map].
  unfold is_percent in Hc. by rewrite Hc, IH.
Qed.

Lemma decode_tokens_literals (l : chars) :
  URI.decode_tokens (map URI.Lit l) = Some l.
Proof.
  induction l as [|c l IH]; [done|]. cbn [URI.decode_tokens map].
  by rewrite IH.
Qed.

(** A name without [%] is its own decoding. *)
Lemma decodeURIComponent_plain (l : chars) :
  Forall (fun c => is_percent c = false) l ->
  URI.decodeURIComponent (of_chars l) = Some (of_chars l).
Proof.
  intros H. unfold URI.decodeURIComponent.
  rewrite to_of_chars, tokens_plain by done. cbn [mbind option_bind].
  by rewrite decode_tokens_literals.
Qed.

Lemma endsWith_app (l : chars) (suffix : string) :
  endsWith (of_chars (l ++ to_chars suffix)) suffix = true.
Proof.
  unfold endsWith. apply bool_decide_eq_true.
  rewrite to_of_chars, length_of_chars, length_app.
  rewrite <- (length_of_chars (to_chars suffix)), of_to_chars.
  split; [|lia].
  replace (length l + String.length suffix - String.length suffix)
    with (length l) by lia.
  by rewrite drop_app_length.
Qed.

Lemma basename_ext_app (p : string) (l : chars) (ext : string) :
  NodePath.basename p = of_chars (l ++ to_chars ext) ->
  NodePath.basename_ext p ext = of_chars l.
Proof.
  intros Hb. unfold NodePath.basename_ext. rewrite Hb, endsWith_app.
  rewrite to_of_chars, length_of_chars, length_app.
  rewrite <- (length_of_chars (to_chars ext)), of_to_chars.
  replace (length l + String.length ext - String.length ext)
    with (length l) by lia.
  by rewrite take_app_length.
Qed.

(** X11. A plain file name is the content ID.  A file [dir/name.json]
    whose directory is not [metadata] and whose [name] is not empty and has
    neither a separator nor a [%] is taken for an envelope with the content
    ID [name]: the ID is put into the keep-set and the stream of the entry
    is read, nothing is thrown. *)
Theorem plain_file_name_is_the_content_id
    (entry : Entry) (dir name : chars) (s : State) :
  entry_type entry = "File" ->
  entry_path entry = of_chars (dir ++ "/"%char :: name ++ to_chars ".json") ->
  name <> [] ->
  slash_free name ->
  Forall (fun c => is_percent c = false) name ->
  last (split_chars dir) <> Some (to_chars "metadata") ->
  let s0 := emit (Log Debug "Received entry for path"
                    (PPath (entry_path entry))) s in
  on_entry entry s
  = Returns (jsonFromStream entry (HEnvelope (of_chars name))
               (set_toKeep (obj_set (toKeep s) (of_chars name) true) s0)).
Proof.
  intros Hfile Hpath Hname Hfree Hplain Hdir s0. subst s0.
  assert (name ++ to_chars ".json" <> []) as Hb by (by destruct name).
  assert (slash_free (name ++ to_chars ".json")) as Hf.
  { apply Forall_app. split; [done|]. by repeat constructor. }
  assert (NodePath.basename (entry_path entry)
          = of_chars (name ++ to_chars ".json")) as Hbase.
  { unfold NodePath.basename. rewrite Hpath, to_of_chars. f_equal.
    pose proof (basename_chars_name (dir ++ ["/"%char])
                  (name ++ to_chars ".json") [] Hb Hf) as H.
    rewrite app_nil_r, app_snoc_slash in H. apply H; [constructor|].
    right. by exists dir. }
  unfold on_entry. rewrite Hfile. cbn [String.eqb Ascii.eqb Bool.eqb negb].
  cbv zeta. rewrite bool_decide_false.
  - rewrite Hbase, endsWith_app.
    unfold handleEnvelopeEntry.
    rewrite (basename_ext_app _ name) by done.
    by rewrite decodeURIComponent_plain.
  - unfold split_sep, NodePath.dirname. rewrite Hpath, !to_of_chars, last_map.
    pose proof (dname_dir dir (name ++ to_chars ".json") [] Hb Hf) as H.
    rewrite app_nil_r in H. rewrite H by constructor.
    destruct (last (split_chars dir)) as [x|]; [|done]. cbn. intros Heq.
    injection Heq as Heq. apply of_chars_eq in Heq. by subst x.
Qed.

(** ** The end of the request, once *)

Lemma completions_emit (a : Action) (s : State) :
  completions (emit a s)
  = completions s + (if is_success_response a then 1 else 0).
Proof.
  unfold completions. cbn [out emit].
  rewrite List.filter_app, length_app. cbn [List.filter].
  by destruct (is_success_response a).
Qed.

Lemma completions_q_process (s : State) :
  completions (q_process s) = completions s.
Proof.
  rewrite q_process_eq. cbv zeta. unfold completions. cbn [out].
  rewrite List.filter_app, filter_start_actions by done.
  by rewrite app_nil_r.
Qed.

Lemma completions_released i task err s :
  completions (released i task err s) = completions s.
Proof.
  unfold released, completions. destruct err; cbn [out set_uploadQueue emit
    set_failureCount set_envelopeCount];
    rewrite List.filter_app; cbn; by rewrite app_nil_r.
Qed.

Lemma success_is_finishing (a : Action) :
  is_finishing a = false -> is_success_response a = false.
Proof.
  intros Hf. destruct (is_success_response a) eqn:Hs; [|done].
  destruct a; try done. cbn in Hf, Hs. congruence.
Qed.

Lemma unfinished_completions (s : State) :
  unfinished s -> completions s = 0.
Proof.
  intros (_ & _ & _ & Hf). unfold completions.
  induction (out s) as [|a l IH]; [done|]. cbn [List.filter] in Hf |- *.
  destruct (is_finishing a) eqn:Ha; [done|].
  rewrite success_is_finishing by done. by apply IH.
Qed.

Section Once.

Variable Buffer_toString : Buffer -> string.
Variable JSON_parse : string -> Error + json.

Lemma finishRequest_once (s : State) :
  recons s = [] -> completions s = 0 ->
  length (recons (finishRequest s)) + completions (finishRequest s) <= 1.
Proof.
  intros Hr Hc.
  destruct (finishRequest_cases s) as [(base & _ & _ & ->)|(_ & ->)].
  - rewrite completions_emit. cbn [recons emit set_recons].
    unfold completions. cbn [out set_recons].
    fold (completions s). rewrite Hr, Hc. cbn. lia.
  - rewrite !completions_emit. cbn [recons emit]. rewrite Hr, Hc. cbn. lia.
Qed.

Lemma step_finishes_once ev s s' :
  queue_ok s -> finishes_once s -> is_queue_or_store_event ev = true ->
  step Buffer_toString JSON_parse ev s = Some s' ->
  finishes_once s'.
Proof.
  intros [Hw _] Hinv Hev Hstep. pose proof Hstep as Hstep'.
  step_cases Hstep; try done.
  all: try (injection Hstep as <-).
  - (* the deferred process *)
    unfold finishes_once. rewrite completions_q_process.
    destruct Hinv as [(Hd & Hr & Hc)|[Hq Hle]].
    + left. by rewrite q_process_eq.
    + right. destruct Hq as [Hd|[Ht Hz]].
      * rewrite q_process_eq. cbn. split; [by left|done].
      * rewrite q_process_no_tasks by done. split; [by right|done].
  - (* a storeEnvelope callback *)
    destruct Hinv as [(Hd & Hr & Hc)|[[Hd|[Ht Hz]] Hle]].
    + destruct (stored_cases _ _ _ _ _ _ _ Heqo Hstep')
        as [->|(Ht & Hz & _ & ->)].
      * left. rewrite completions_q_process, completions_released.
        rewrite q_process_eq. unfold released. by destruct err.
      * right. split.
        -- right.
           destruct (finishRequest_cases (released i lookup err s))
             as [(base & _ & _ & ->)|(_ & ->)];
             unfold released; by destruct err.
        -- apply finishRequest_once; [|by rewrite completions_released].
           unfold released. by destruct err.
    + destruct (stored_cases _ _ _ _ _ _ _ Heqo Hstep')
        as [->|(_ & _ & Hd' & _)]; [|congruence].
      right. rewrite completions_q_process, completions_released.
      rewrite q_process_eq. unfold released. split; [left|]; by destruct err.
    + rewrite Hz in Hw. symmetry in Hw. apply length_zero_iff_nil in Hw.
      by rewrite Hw, lookup_nil in Heqo.
  - (* a page of the listing *)
    destruct lookup as [existing|]; [|done]. injection Hstep as <-.
    destruct Hinv as [(Hd & Hr & Hc)|[Hq Hle]];
      [by rewrite Hr, lookup_nil in Heqo|].
    right. pose proof (lookup_lt_Some _ _ _ Heqo) as Hlt.
    unfold listContent_cb. destruct r as [e|ids].
    + split; [done|]. unfold finishRequest_cb, reportCompletion, reportError.
      rewrite !completions_emit. cbn [recons emit set_recons].
      unfold completions. cbn [out set_recons]. fold (completions s).
      rewrite length_delete by eauto. cbn. lia.
    + destruct ids as [|id ids]; cbn [length Nat.ltb Nat.leb].
      * split; [done|]. rewrite !completions_emit.
        cbn [recons emit set_recons set_deletionCount].
        unfold completions. cbn [out set_recons set_deletionCount].
        fold (completions s). rewrite length_insert. cbn. lia.
      * split; [done|]. rewrite !completions_emit.
        cbn [recons emit set_recons].
        unfold completions. cbn [out set_recons].
        fold (completions s). rewrite length_insert. cbn. lia.
  - (* the callback of the removal *)
    destruct lookup as [existing|]; [done|]. injection Hstep as <-.
    destruct Hinv as [(Hd & Hr & Hc)|[Hq Hle]];
      [by rewrite Hr, lookup_nil in Heqo|].
    right. pose proof (lookup_lt_Some _ _ _ Heqo) as Hlt.
    split; [by destruct err|].
    unfold removeEnvelopes_cb, finishRequest_cb, reportCompletion,
      reportError.
    destruct err; cbv zeta; rewrite !completions_emit;
      cbn [recons emit set_recons];
      unfold completions; cbn [out set_recons]; fold (completions s);
      rewrite length_delete by eauto; cbn; lia.
Qed.

(** X13. The request is completed at most once.  When the tarball ends
    after all of its entries were read, so that only callbacks of the
    queue and of the store follow the [end] of the parse stream, the
    handler answers with 204 at most once, however the uploads, the
    listing and the removal end. *)
Theorem request_is_completed_at_most_once
    (pre post : list Event) (s : State) :
  run Buffer_toString JSON_parse (pre ++ EvParseEnd :: post) init = Some s ->
  List.filter is_EvParseEnd pre = [] ->
  forallb is_queue_or_store_event post = true ->
  completions s <= 1.
Proof.
  intros Hrun Hpre Hpost.
  assert (forall evs s0 s,
            unfinished s0 ->
            run Buffer_toString JSON_parse evs s0 = Some s ->
            List.filter is_EvParseEnd evs = [] -> unfinished s) as Hearly.
  { clear. induction evs as [|ev evs IH]; intros s0 s Hu Hrun Hno.
    - by injection Hrun as <-.
    - simpl in Hrun, Hno.
      destruct (step _ _ ev s0) as [s1|] eqn:Hstep; [|done]. simpl in Hrun.
      destruct (is_EvParseEnd ev) eqn:Hev; [done|].
      eapply IH; [|exact Hrun|exact Hno]. by eapply step_unfinished. }
  assert (forall evs s0 s,
            queue_ok s0 -> finishes_once s0 ->
            run Buffer_toString JSON_parse evs s0 = Some s ->
            forallb is_queue_or_store_event evs = true ->
            finishes_once s) as Hlate.
  { clear. induction evs as [|ev evs IH]; intros s0 s Hok Hinv Hrun Hall.
    - by injection Hrun as <-.
    - simpl in Hrun, Hall. apply andb_prop in Hall as [Hev Hall].
      destruct (step _ _ ev s0) as [s1|] eqn:Hstep; [|done]. simpl in Hrun.
      eapply IH; [| |exact Hrun|exact Hall].
      + by destruct (step_queue_ok _ _ _ _ _ Hok Hstep).
      + by eapply step_finishes_once. }
  rewrite run_app in Hrun.
  destruct (run _ _ pre init) as [s1|] eqn:Hrun1; [|done].
  cbn [mbind option_bind run step] in Hrun.
  assert (queue_ok init) as Hok0
    by (split; cbn; [done|unfold concurrency; lia]).
  destruct (run_queue_ok _ _ _ _ _ Hok0 Hrun1) as [Hok1 _].
  assert (unfinished s1) as Hu.
  { eapply Hearly; [|exact Hrun1|exact Hpre]. by repeat split. }
  assert (queue_ok (on_end s1)) as Hok2.
  { by destruct (step_queue_ok Buffer_toString JSON_parse EvParseEnd s1 _
                   Hok1 eq_refl). }
  assert (finishes_once (on_end s1)) as Hinv.
  { pose proof (unfinished_completions _ Hu) as Hc.
    destruct Hu as (Hd & Hr & _ & _). unfold on_end.
    destruct (0 <? q_running s1)%nat.
    - left. by repeat split.
    - right. split; [left|by apply finishRequest_once].
      by destruct (finishRequest_cases s1) as [(base & _ & _ & ->)|(_ & ->)]. }
  destruct (Hlate _ _ _ Hok2 Hinv Hrun Hpost) as [(_ & _ & ->)|[_ Hle]]; lia.
Qed.

End Once.

(** ** Saturation of the queue and the errors that reach the client *)

Lemma q_process_saturates (s : State) :
  tasks (uploadQueue (q_process s)) = []
  \/ concurrency <= workers (uploadQueue (q_process s)).
Proof.
  rewrite q_process_eq. cbv zeta. cbn [uploadQueue tasks workers].
  destruct (Nat.min_spec (length (tasks (uploadQueue s)))
              (concurrency - workers (uploadQueue s))) as [[_ ->]|[_ ->]].
  - left. by rewrite drop_all.
  - right. lia.
Qed.

Section Clients.

Variable Buffer_toString : Buffer -> string.
Variable JSON_parse : string -> Error + json.

(** X9. No envelope waits while a worker is free.  At any point of a
    request, after the deferred [process] of the queue and after every
    callback of [storeEnvelope], either no task is waiting or ten uploads
    are in flight. *)
Theorem no_task_waits_for_a_free_worker
    (evs : list Event) (ev : Event) (s s' : State) :
  run Buffer_toString JSON_parse evs init = Some s ->
  is_queue_event ev = true ->
  step Buffer_toString JSON_parse ev s = Some s' ->
  tasks (uploadQueue s') = [] \/ workers (uploadQueue s') = 10.
Proof.
  intros Hrun Hev Hstep.
  assert (queue_ok init) as Hok0
    by (split; cbn; [done|unfold concurrency; lia]).
  destruct (run_queue_ok _ _ _ _ _ Hok0 Hrun) as [Hok _].
  destruct (step_queue_ok _ _ _ _ _ Hok Hstep) as [[_ Hle] _].
  unfold concurrency in Hle.
  assert (tasks (uploadQueue s') = []
          \/ concurrency <= workers (uploadQueue s')) as [Ht|Hw];
    [|by left|right; unfold concurrency in Hw; lia].
  pose proof Hstep as Hstep'. step_cases Hstep; try done.
  - injection Hstep as <-. apply q_process_saturates.
  - destruct (stored_cases _ _ _ _ _ _ _ Heqo Hstep')
      as [->|(Ht & _ & _ & ->)]; [apply q_process_saturates|].
    left.
    destruct (finishRequest_cases (released i lookup err s))
      as [(base & _ & _ & ->)|(_ & ->)]; unfold released; by destruct err.
Qed.

Lemma step_error_reports ev s s' :
  step Buffer_toString JSON_parse ev s = Some s' ->
  List.filter is_error_response (out s')
  = List.filter is_error_response (out s) ++ error_reports ev.
Proof.
  intros Hstep. pose proof Hstep as Hstep'.
  step_cases Hstep.
  all: try (injection Hstep as <-).
  all: cbn [error_reports].
  - rewrite settle_on_entry.
    destruct (String.eqb (entry_type entry) "File");
      [|by rewrite app_nil_r].
    destruct (route (entry_path entry)) as [| |[id|]|warning];
      explode; rewrite ?List.filter_app; cbn; by rewrite ?app_nil_r.
  - explode. by rewrite app_nil_r.
  - destruct (stream_end_cases _ _ _ _ _ _ Heqo Hstep')
      as [(d & m & Hl & ->)|[(d & m & Hl & ->)|[(c & v & Hl & _ & _ & _ & ->)|
          [(k & ids & Hl & _ & _ & ->)|(id & e & Hl & _ & ->)]]]];
      try rewrite keep_all_eq; explode; rewrite ?List.filter_app; cbn;
      by rewrite ?app_nil_r.
  - destruct (stream_error_cases _ _ _ _ _ _ _ Heqo Hstep') as (d & ->).
    destruct (is_envelope_listener lookup); explode;
      rewrite ?List.filter_app; cbn; by rewrite ?app_nil_r.
  - explode. rewrite List.filter_app, filter_start_actions by done.
    by rewrite !app_nil_r.
  - destruct (stored_cases _ _ _ _ _ _ _ Heqo Hstep')
      as [->|(_ & _ & _ & ->)].
    + rewrite q_process_eq. cbv zeta. unfold released.
      destruct err; cbn;
        rewrite !List.filter_app, filter_start_actions by done; cbn;
        by rewrite ?app_nil_r.
    + destruct (finishRequest_cases (released i lookup err s))
        as [(base & _ & _ & ->)|(_ & ->)];
        unfold released; destruct err; cbn; rewrite !List.filter_app; cbn;
        by rewrite ?app_nil_r.
  - explode. rewrite !List.filter_app. cbn. by rewrite ?app_nil_r.
  - unfold on_end. case_match; [explode; by rewrite app_nil_r|].
    destruct (finishRequest_cases s) as [(base & _ & _ & ->)|(_ & ->)];
      cbn; rewrite !List.filter_app; cbn; by rewrite ?app_nil_r.
  - destruct lookup as [existing|]; [|done]. injection Hstep as <-.
    destruct r as [e|[|id ids]]; explode; rewrite ?List.filter_app; cbn;
      by rewrite ?app_nil_r.
  - destruct lookup as [existing|]; [done|]. injection Hstep as <-.
    destruct err; explode; rewrite ?List.filter_app; cbn;
      by rewrite ?app_nil_r.
Qed.

(** X14. Errors reach the client only from the tarball and from the
    reconciliation.  The error answers of the handler are, in order, one
    [res.send(400, err)] for every error of the parse stream and one
    [next(err)] with status code 400 for every failed listing or removal;
    a problem of an entry or a failed [storeEnvelope] never answers the
    request with an error. *)
Theorem errors_reach_the_client_from_tarball_and_reconciliation
    (evs : list Event) (s : State) :
  run Buffer_toString JSON_parse evs init = Some s ->
  List.filter is_error_response (out s) = flat_map error_reports evs.
Proof.
  assert (forall evs s0 s,
            run Buffer_toString JSON_parse evs s0 = Some s ->
            List.filter is_error_response (out s)
            = List.filter is_error_response (out s0)
              ++ flat_map error_reports evs) as Hgen.
  { clear. induction evs as [|ev evs IH]; intros s0 s Hrun.
    - injection Hrun as <-. cbn. by rewrite app_nil_r.
    - cbn [run] in Hrun.
      destruct (step _ _ ev s0) as [s1|] eqn:Hstep; [|done].
      cbn [mbind option_bind] in Hrun. cbn [flat_map].
      by rewrite (IH _ _ Hrun), (step_error_reports _ _ _ Hstep), app_assoc. }
  intros Hrun. exact (Hgen _ _ _ Hrun).
Qed.

End Clients.

(* ===================================================================== *)
(** * The further properties at a sample upload *)
(* ===================================================================== *)


(** Before the [end] of the tarball the envelope may be on its way to the
    store, the listing is not asked for. *)
Lemma nothing_is_finished_before_end_witness :
  exists s,
    Upload.state_after Upload.entriesRead = Some s
    /\ (List.filter is_finishing (out s) = []
        /\ deletionCount s = 0
        /\ recons s = []).
Proof.
  eexists. split; [vm_compute; reflexivity|].
  apply (nothing_is_finished_before_end Sample.toString Upload.parse_text
           Upload.entriesRead); vm_compute; reflexivity.
Defined.

(** A tarball with a keep list and an envelope, without a config entry. *)
Lemma no_config_no_removal_witness :
  exists s,
    Upload.state_after (Upload.keepRead ++ Sample.envelopeRead
                ++ [EvProcess; EvStored 0 None; EvParseEnd]) = Some s
    /\ completions s = 1
    /\ (contentIDBase s = None
        /\ List.filter is_reconciling (out s) = []
        /\ deletionCount s = 0).
Proof.
  eexists. split; [vm_compute; reflexivity|].
  split; [vm_compute; reflexivity|].
  apply (no_config_no_removal Sample.toString Upload.parse_text
           (Upload.keepRead ++ Sample.envelopeRead
            ++ [EvProcess; EvStored 0 None; EvParseEnd]));
    vm_compute; reflexivity.
Defined.


(** The name [%zz] is not a percent-encoding. *)
Lemma only_undecodable_names_throw_witness :
  exists s,
    Upload.state_after [EvEntry Upload.plainEntry;
                        EvEntry Upload.undecodableEntry] = Some s
    /\ uncaught_errors (out s) = [URIError]
    /\ uncaught_errors (out s)
       = replicate
           (length (List.filter is_undecodable_entry
                      [EvEntry Upload.plainEntry;
                       EvEntry Upload.undecodableEntry]))
           URIError.
Proof.
  eexists. split; [vm_compute; reflexivity|].
  split; [vm_compute; reflexivity|].
  apply (only_undecodable_names_throw Sample.toString Upload.parse_text).
  vm_compute. reflexivity.
Defined.

(** A [metadata/config.json] whose text is [null]: reading the key
    throws, and the exception is logged. *)
Lemma exceptions_of_entry_callbacks_are_logged_witness :
  exists s l s' e,
    Upload.state_after [ EvEntry Upload.nullConfigEntry;
                         EvData 0 (Sample.bytes "null") ] = Some s
    /\ streams s !! 0 = Some l
    /\ step Sample.toString Upload.parse_text (EvStreamEnd 0) s = Some s'
    /\ get_member JNull "contentIDBase" = inl e
    /\ failureCount s' = failureCount s
    /\ only_logged 0 l "parsing config.json" e s s'.
Proof.
  eexists _, _, _, _.
  split; [vm_compute; reflexivity|].
  split; [vm_compute; reflexivity|].
  split; [vm_compute; reflexivity|].
  split; [reflexivity|].
  match goal with
  | |- failureCount ?s' = failureCount ?s /\ only_logged 0 ?l _ ?e _ _ =>
      assert (streams s !! 0 = Some l) as Hl by (vm_compute; reflexivity);
      assert (step Sample.toString Upload.parse_text (EvStreamEnd 0) s
              = Some s')
        as Hstep by (vm_compute; reflexivity);
      pose proof (exceptions_of_entry_callbacks_are_logged
                    Sample.toString Upload.parse_text 0 l s s' Hl Hstep) as H
  end.
  hnf in H. apply H. reflexivity.
Defined.

(** The store lists [to/a] and [to/b], then [to/c], then nothing. *)
Lemma listing_pages_accumulate_witness :
  exists s,
    sample_run Sample.configOnly = Some s
    /\ exists s',
         run Sample.toString Sample.parse
           (map (fun p => EvListPage 0 (inr p)) [["to/a"; "to/b"]; ["to/c"]]
            ++ [EvListPage 0 (inr [])]) s = Some s'
         /\ out s' = out s ++ replicate 2 ListNext
                     ++ [ Log Debug "Deleting removed envelopes."
                            (PDeletionCount
                               (length (toDelete_of (toKeep s)
                                          ([] ++ concat [["to/a"; "to/b"];
                                                         ["to/c"]]))));
                          RemoveEnvelopes
                            (toDelete_of (toKeep s)
                               ([] ++ concat [["to/a"; "to/b"]; ["to/c"]])) ]
         /\ deletionCount s'
            = length (toDelete_of (toKeep s)
                        ([] ++ concat [["to/a"; "to/b"]; ["to/c"]]))
         /\ recons s' = <[0 := Removing]> (recons s).
Proof.
  eexists. split; [vm_compute; reflexivity|].
  apply (listing_pages_accumulate Sample.toString Sample.parse 0 []
           [["to/a"; "to/b"]; ["to/c"]]).
  - vm_compute. reflexivity.
  - repeat constructor; discriminate.
Defined.

(** Two envelopes were read; one is handed to the store, one waits. *)
Lemma uploads_follow_the_order_of_reading_witness :
  exists s,
    sample_run (Sample.envelopeRead
                ++ [EvEntry Upload.plainEntry; EvData 0 (Sample.bytes "{}");
                    EvStreamEnd 0]) = Some s
    /\ tasks (uploadQueue s)
       = [Sample.envelopeTask; {| contentID := "a"; envelope := JObj [] |}]
    /\ stored_tasks (out s) ++ tasks (uploadQueue s)
       = pushes Sample.toString Sample.parse
           (Sample.envelopeRead
            ++ [EvEntry Upload.plainEntry; EvData 0 (Sample.bytes "{}");
                EvStreamEnd 0]) init.
Proof.
  eexists. split; [vm_compute; reflexivity|].
  split; [vm_compute; reflexivity|].
  apply (uploads_follow_the_order_of_reading Sample.toString Sample.parse).
  vm_compute. reflexivity.
Defined.

(** Eleven envelopes wait; after the deferred [process] ten uploads are in
    flight. *)
Lemma no_task_waits_for_a_free_worker_witness :
  exists s s',
    sample_run (concat (replicate 11 Sample.envelopeRead)) = Some s
    /\ step Sample.toString Sample.parse EvProcess s = Some s'
    /\ length (tasks (uploadQueue s')) = 1
    /\ (tasks (uploadQueue s') = [] \/ workers (uploadQueue s') = 10).
Proof.
  eexists _, _.
  split; [vm_compute; reflexivity|].
  split; [vm_compute; reflexivity|].
  split; [vm_compute; reflexivity|].
  eapply (no_task_waits_for_a_free_worker Sample.toString Sample.parse
            (concat (replicate 11 Sample.envelopeRead)) EvProcess);
    vm_compute; reflexivity.
Defined.

(** The two bytes of an envelope arrive one by one. *)
Lemma chunking_does_not_matter_witness :
  exists s,
    sample_run [EvEntry Sample.envelopeEntry] = Some s
    /\ run Sample.toString Sample.parse
         (map (EvData 0) [Sample.bytes "{"; Sample.bytes "}"]
          ++ [EvStreamEnd 0]) s
       = run Sample.toString Sample.parse
           [EvData 0 (concat [Sample.bytes "{"; Sample.bytes "}"]);
            EvStreamEnd 0] s.
Proof.
  eexists. split; [vm_compute; reflexivity|].
  apply (chunking_does_not_matter Sample.toString Sample.parse 0
           [Sample.bytes "{"; Sample.bytes "}"]).
  discriminate.
Defined.

(** The file [envelopes/a.json] is the envelope [a]. *)
Lemma plain_file_name_is_the_content_id_witness :
  on_entry Upload.plainEntry init
  = Returns (jsonFromStream Upload.plainEntry
               (HEnvelope (of_chars (to_chars "a")))
               (set_toKeep
                  (obj_set (toKeep init) (of_chars (to_chars "a")) true)
                  (emit (Log Debug "Received entry for path"
                           (PPath (entry_path Upload.plainEntry))) init))).
Proof.
  apply (plain_file_name_is_the_content_id Upload.plainEntry
           (to_chars "envelopes") (to_chars "a") init).
  - reflexivity.
  - reflexivity.
  - discriminate.
  - repeat constructor.
  - repeat constructor.
  - vm_compute. discriminate.
Defined.

(** The removal of the sample upload names [to/c], which the store
    listed. *)
Lemma only_listed_ids_are_removed_witness :
  exists s,
    Upload.state_after Upload.whole = Some s
    /\ removed_ids (out s) = ["to/c"]
    /\ In "to/c" (listed_ids Upload.whole).
Proof.
  eexists. split; [vm_compute; reflexivity|].
  split; [vm_compute; reflexivity|].
  eapply (only_listed_ids_are_removed Sample.toString Upload.parse_text
            Upload.whole _ "to/c");
    [vm_compute; reflexivity|vm_compute; tauto].
Defined.

(** The sample upload is answered once. *)
Lemma request_is_completed_at_most_once_witness :
  exists s,
    Upload.state_after Upload.whole = Some s
    /\ completions s = 1
    /\ completions s <= 1.
Proof.
  eexists. split; [vm_compute; reflexivity|].
  split; [vm_compute; reflexivity|].
  apply (request_is_completed_at_most_once Sample.toString Upload.parse_text
           Upload.entriesRead Upload.afterEnd);
    vm_compute; reflexivity.
Defined.

(** The listing of a request fails after an envelope could not be
    stored: only the listing is reported. *)
Lemma errors_reach_the_client_from_tarball_and_reconciliation_witness :
  exists s,
    Upload.state_after (Upload.entriesRead
                ++ [EvStored 0 (Some Sample.storeError); EvParseEnd;
                    EvListPage 0 (inl Sample.storeError)]) = Some s
    /\ failureCount s = 1
    /\ List.filter is_error_response (out s)
       = flat_map error_reports
           (Upload.entriesRead
            ++ [EvStored 0 (Some Sample.storeError); EvParseEnd;
                EvListPage 0 (inl Sample.storeError)]).
Proof.
  eexists. split; [vm_compute; reflexivity|].
  split; [vm_compute; reflexivity|].
  apply (errors_reach_the_client_from_tarball_and_reconciliation
           Sample.toString Upload.parse_text).
  vm_compute. reflexivity.
Defined.
